(** * Live-session negotiation and broker client of the camera-car dashboard

    A shallow embedding of the connection logic of the two viewer
    components ([StreamViewer.tsx] and the [WebcamViewer] component), of the
    [useMQTT] hook and of the control handlers of [Index.tsx], followed by
    the properties proved about them.

    Conventions of the embedding.
    - React state is a record; a state setter is a record update.  Values a
      handler reads from its closure ([broadcastId], [isConnected]) are
      stored with the attempt that created the handler.
    - Browser objects ([WebSocket], [RTCPeerConnection], timers, promises)
      live in tables indexed by handle; an event delivered by the browser
      first performs the browser's own transition on the object and then
      runs the handler the source installed on it.
    - A call of [resolve] or [reject] is always the last statement of the
      handler that makes it, so the continuation of [connectToStream] is
      run at the place of the call.
    - [new WebSocket(url)] throws on an address with a fragment; the
      executors of [connectWebRTC] and [connectWebSocket] catch the
      exception and reject their promise. *)

From Stdlib Require Import ZArith Ascii String.
From stdpp Require Import gmap strings list pretty.

Local Open Scope string_scope.
Local Open Scope Z_scope.
Local Open Scope list_scope.

(** ** JavaScript strings

    Strings are sequences of code units; the embedding covers the code
    units below 256, one [ascii] each. *)
Module Js.

(** WhiteSpace and LineTerminator code units below 256, as stripped by
    [String.prototype.trim]: TAB, LF, VT, FF, CR, SPACE, NBSP. *)
Definition is_white_space (c : ascii) : bool :=
  let n := nat_of_ascii c in
  (Nat.eqb n 9 || Nat.eqb n 10 || Nat.eqb n 11 || Nat.eqb n 12
   || Nat.eqb n 13 || Nat.eqb n 32 || Nat.eqb n 160)%bool.

Definition is_empty (s : string) : bool :=
  match s with EmptyString => true | String _ _ => false end.

Fixpoint trim_start (s : string) : string :=
  match s with
  | EmptyString => EmptyString
  | String c r => if is_white_space c then trim_start r else s
  end.

Fixpoint trim_end (s : string) : string :=
  match s with
  | EmptyString => EmptyString
  | String c r =>
      let r' := trim_end r in
      if (is_white_space c && is_empty r')%bool then EmptyString
      else String c r'
  end.

(** [s.trim()] *)
Definition trim (s : string) : string := trim_end (trim_start s).

(** Truthiness of a string: every string but the empty one. *)
Definition truthy (s : string) : bool := negb (is_empty s).

(** Truthiness of a value that is a string, [null] or [undefined]. *)
Definition truthy_opt (o : option string) : bool :=
  match o with Some s => truthy s | None => false end.

(** [o || d] for such a value. *)
Definition or_default (o : option string) (d : string) : string :=
  match o with
  | Some s => if truthy s then s else d
  | None => d
  end.

(** [n || 0] for a number that may be absent. *)
Definition num_or_zero (o : option Z) : Z :=
  match o with Some n => n | None => 0 end.

(** [!s.trim()] *)
Definition blank (s : string) : bool := negb (truthy (trim s)).

Fixpoint all_white (s : string) : bool :=
  match s with
  | EmptyString => true
  | String c r => (is_white_space c && all_white r)%bool
  end.

End Js.

(** ** The broker client hook, [useMQTT.ts] *)
Module MQTT.

Inductive connection_status :=
| Connecting | Connected | Disconnected | Reconnecting | Error.

(** A call of [client.publish(topic, message, { qos }, cb)]. *)
Record publish_call := { p_topic : string; p_message : string; p_qos : Z }.

(** The [lastMessage] object. *)
Record last_message :=
  { m_topic : string; m_message : string; m_timestamp : string }.

(** The [MqttClient] object made by [mqtt.connect]: what the hook asked
    of it. *)
Record mqtt_client :=
  { subscribed : list (string * Z);
    published : list publish_call;
    ended : bool }.

(** The React state [MQTTState]; [client] is the reference held in the
    state ([true] when it is not [null]). *)
Record MQTTState :=
  { client : bool;
    isConnected : bool;
    connectionStatus : connection_status;
    error : option string;
    lastMessage : option last_message }.

(** The hook: its state, [clientRef] and the client object. *)
Record hook :=
  { state : MQTTState;
    clientRef : bool;
    broker : mqtt_client }.

Definition initial_state : MQTTState :=
  {| client := false; isConnected := false;
     connectionStatus := Disconnected; error := None;
     lastMessage := None |}.

Definition initial : hook :=
  {| state := initial_state; clientRef := false;
     broker := {| subscribed := []; published := []; ended := false |} |}.

Definition setState (f : MQTTState -> MQTTState) (h : hook) : hook :=
  {| state := f (state h); clientRef := clientRef h; broker := broker h |}.

Definition subscriptionTopics : list string :=
  ["userxyz/device/cam/stream"; "userxyz/device/cam/capture"].

(** What [mqtt.connect] does: returns a client or throws. *)
Inductive connect_outcome :=
| Returned
| ThrewError (message : string)
| ThrewOther.

(** [connectToMQTT], run once by the mount effect. *)
Definition connectToMQTT (o : connect_outcome) (h : hook) : hook :=
  match o with
  | Returned =>
      setState (fun prev =>
        {| client := true; isConnected := isConnected prev;
           connectionStatus := Connecting; error := error prev;
           lastMessage := lastMessage prev |})
        {| state := state h; clientRef := true; broker := broker h |}
  | ThrewError m =>
      setState (fun prev =>
        {| client := client prev; isConnected := isConnected prev;
           connectionStatus := Error; error := Some m;
           lastMessage := lastMessage prev |}) h
  | ThrewOther =>
      setState (fun prev =>
        {| client := client prev; isConnected := isConnected prev;
           connectionStatus := Error;
           error := Some "Connection initialization failed";
           lastMessage := lastMessage prev |}) h
  end.

(** Events emitted by the client object.  A message event carries the
    base64 text of its payload and the time stamp the handler reads. *)
Inductive event :=
| OnConnect
| OnMessage (topic base64 timestamp : string)
| OnError (message : string)
| OnDisconnect
| OnReconnect
| OnClose
| OnOffline.

Definition is_image_topic (topic : string) : bool :=
  (String.eqb topic "userxyz/device/cam/stream"
   || String.eqb topic "userxyz/device/cam/capture")%bool.

(** The handlers registered with [client.on]. *)
Definition handle (e : event) (h : hook) : hook :=
  match e with
  | OnConnect =>
      let h1 := setState (fun prev =>
        {| client := true; isConnected := true;
           connectionStatus := Connected; error := None;
           lastMessage := lastMessage prev |}) h in
      {| state := state h1; clientRef := clientRef h1;
         broker :=
           {| subscribed :=
                subscribed (broker h1)
                ++ map (fun t => (t, 1)) subscriptionTopics;
              published := published (broker h1);
              ended := ended (broker h1) |} |}
  | OnMessage topic base64 timestamp =>
      if is_image_topic topic then
        setState (fun prev =>
          {| client := client prev; isConnected := isConnected prev;
             connectionStatus := connectionStatus prev;
             error := error prev;
             lastMessage :=
               Some {| m_topic := topic; m_message := base64;
                       m_timestamp := timestamp |} |}) h
      else h
  | OnError m =>
      setState (fun prev =>
        {| client := client prev; isConnected := false;
           connectionStatus := Error;
           error := Some ("Connection failed: " +:+ m);
           lastMessage := lastMessage prev |}) h
  | OnDisconnect | OnOffline =>
      setState (fun prev =>
        {| client := client prev; isConnected := false;
           connectionStatus := Disconnected; error := error prev;
           lastMessage := lastMessage prev |}) h
  | OnReconnect =>
      setState (fun prev =>
        {| client := client prev; isConnected := isConnected prev;
           connectionStatus := Reconnecting; error := error prev;
           lastMessage := lastMessage prev |}) h
  | OnClose => h
  end.

Definition run (tr : list event) (h : hook) : hook :=
  fold_left (fun acc e => handle e acc) tr h.

(** The effect's clean-up. *)
Definition cleanup (h : hook) : hook :=
  if clientRef h then
    {| state := state h; clientRef := clientRef h;
       broker := {| subscribed := subscribed (broker h);
                    published := published (broker h);
                    ended := true |} |}
  else h.

(** [publishMessage(topic, message)]: the returned boolean and the hook
    afterwards. *)
Definition publishMessage (topic message : string) (h : hook)
  : bool * hook :=
  if (client (state h) && isConnected (state h))%bool then
    (true,
     {| state := state h; clientRef := clientRef h;
        broker :=
          {| subscribed := subscribed (broker h);
             published :=
               published (broker h)
               ++ [{| p_topic := topic; p_message := message;
                      p_qos := 1 |}];
             ended := ended (broker h) |} |})
  else (false, h).

(** Order in which mqtt.js emits its events, as far as the hook depends
    on it: the client emits [reconnect] from its reconnect timer, which
    it arms when the connection closes, after it has emitted [offline];
    a [connect] ends the reconnecting phase.  [reconnecting] is the
    client's flag of that name. *)
Fixpoint emission_order (reconnecting : bool) (tr : list event) : bool :=
  match tr with
  | [] => true
  | OnConnect :: r => emission_order false r
  | OnOffline :: r => emission_order true r
  | OnReconnect :: r => (reconnecting && emission_order reconnecting r)%bool
  | _ :: r => emission_order reconnecting r
  end.

(** What the emission order keeps true of the hook's state: while the
    client is reconnecting, and whenever the status reads
    [Reconnecting], [Connecting], [Disconnected] or [Error], the
    [isConnected] flag is off. *)
Definition flag_follows_status (reconnecting : bool) (h : hook) : Prop :=
  (reconnecting = true -> isConnected (state h) = false)
  /\ (connectionStatus (state h) <> Connected ->
      isConnected (state h) = false).

End MQTT.

(** ** The control handlers of [Index.tsx] *)
Module Control.

Record page :=
  { mqtt : MQTT.hook;
    activeControls : gset string }.

Definition control_topic (direction : string) : string :=
  "userxyz/device/control/" +:+ direction.

(** [handleControlPress(direction)] *)
Definition handleControlPress (direction : string) (p : page) : page :=
  let topic := control_topic direction in
  let '(ok, h) := MQTT.publishMessage topic "1" (mqtt p) in
  if ok then
    {| mqtt := h; activeControls := activeControls p ∪ {[direction]} |}
  else {| mqtt := h; activeControls := activeControls p |}.

(** [handleControlRelease(direction)] *)
Definition handleControlRelease (direction : string) (p : page) : page :=
  let topic := control_topic direction in
  let '(ok, h) := MQTT.publishMessage topic "0" (mqtt p) in
  if ok then
    {| mqtt := h; activeControls := activeControls p ∖ {[direction]} |}
  else {| mqtt := h; activeControls := activeControls p |}.

(** [handleCapture()] *)
Definition handleCapture (p : page) : page :=
  {| mqtt := snd (MQTT.publishMessage "userxyz/device/cam/capture" "1"
                    (mqtt p));
     activeControls := activeControls p |}.

End Control.

(** ** The viewer components

    [StreamViewer.tsx] and the [WebcamViewer] component share their
    structure; [variant] selects the one a definition follows where they
    differ. *)
Module Viewer.

Inductive variant := StreamViewer | WebcamViewer.

(** Handles index the tables of browser objects. *)
Abbreviation handle := nat (only parsing).

(** *** Browser objects *)

Inductive ready_state := CONNECTING | OPEN | CLOSING | CLOSED.

Inductive role := Signaling | Frame.

(** A session description and an ICE candidate are opaque texts. *)
Definition description := string.
Definition candidate := string.

(** Messages the viewer sends on the signaling socket. *)
Inductive out_message :=
| JoinStream (broadcastId : string)
| AnswerOut (answer : description) (broadcastId : string)
| IceCandidateOut (cand : candidate) (broadcastId : string).

(** A [WebSocket]: the service port and path given to [getWebSocketUrl],
    its ready state, whether its close event has been fired, what was
    sent on it, and the attempt and role it was created for (which fix
    the handlers installed on it). *)
Record websocket :=
  { ws_port : Z;
    ws_path : string;
    readyState : ready_state;
    closeFired : bool;
    sent : list out_message;
    ws_attempt : nat;
    ws_role : role }.

(** Calls made on an [RTCPeerConnection], in order. *)
Inductive pc_call :=
| SetRemoteDescription (d : description)
| CreateAnswer
| SetLocalDescription (d : description)
| AddIceCandidate (c : option candidate)
| ClosePeer.

(** An [RTCPeerConnection]: [remoteCandidates] are the candidates the
    connection accepted. *)
Record peer :=
  { pc_closed : bool;
    remoteDescription : option description;
    localDescription : option description;
    remoteCandidates : list candidate;
    pc_calls : list pc_call;
    pc_attempt : nat }.

Inductive promise := Pending | Fulfilled | Rejected (reason : string).

Inductive timer := Armed (delay : Z) | Cleared | Fired.

(** One invocation of [connectToStream] that passed validation: the
    values its closures captured, the objects it created, the promises
    of [connectWebRTC] and [connectWebSocket] and their timers. *)
Record attempt :=
  { a_broadcastId : string;
    a_isConnected : bool;
    a_signaling : handle;
    a_peer : handle;
    a_webrtc : promise;
    a_signalingTimeout : option timer;
    a_stream : option handle;
    a_websocket : option promise;
    a_streamTimeout : option timer }.

(** *** Component state *)

Inductive connection_type := WebRTC | WebSocket.

(** The [video] element. *)
Record video := { srcObject : option nat; src : string }.

(** The [useState] cells.  [connectionType] exists in [WebcamViewer]
    only and stays [None] in [StreamViewer]. *)
Record ui :=
  { broadcastId : string;
    isConnecting : bool;
    isConnected : bool;
    error : option string;
    viewerCount : Z;
    streamQuality : string;
    connectionType : option connection_type }.

(** The [useRef] cells.  [signalingWsRef] exists in [WebcamViewer] only
    and stays [None] in [StreamViewer]. *)
Record refs :=
  { videoRef : option video;
    peerConnectionRef : option handle;
    websocketRef : option handle;
    signalingWsRef : option handle }.

Record viewer :=
  { st : ui;
    rf : refs;
    sockets : list websocket;
    peers : list peer;
    attempts : list attempt }.

Definition initial : viewer :=
  {| st := {| broadcastId := ""; isConnecting := false;
              isConnected := false; error := None; viewerCount := 0;
              streamQuality := "HD"; connectionType := None |};
     rf := {| videoRef := Some {| srcObject := None; src := "" |};
              peerConnectionRef := None; websocketRef := None;
              signalingWsRef := None |};
     sockets := []; peers := []; attempts := [] |}.

(** *** State setters *)

Definition with_st (f : ui -> ui) (s : viewer) : viewer :=
  {| st := f (st s); rf := rf s; sockets := sockets s; peers := peers s;
     attempts := attempts s |}.

Definition with_rf (f : refs -> refs) (s : viewer) : viewer :=
  {| st := st s; rf := f (rf s); sockets := sockets s; peers := peers s;
     attempts := attempts s |}.

Definition with_sockets (f : list websocket -> list websocket)
    (s : viewer) : viewer :=
  {| st := st s; rf := rf s; sockets := f (sockets s); peers := peers s;
     attempts := attempts s |}.

Definition with_peers (f : list peer -> list peer) (s : viewer) : viewer :=
  {| st := st s; rf := rf s; sockets := sockets s; peers := f (peers s);
     attempts := attempts s |}.

Definition with_attempts (f : list attempt -> list attempt)
    (s : viewer) : viewer :=
  {| st := st s; rf := rf s; sockets := sockets s; peers := peers s;
     attempts := f (attempts s) |}.

Definition setBroadcastId (v : string) : viewer -> viewer :=
  with_st (fun u =>
    {| broadcastId := v; isConnecting := isConnecting u;
       isConnected := isConnected u; error := error u;
       viewerCount := viewerCount u; streamQuality := streamQuality u;
       connectionType := connectionType u |}).

Definition setIsConnecting (v : bool) : viewer -> viewer :=
  with_st (fun u =>
    {| broadcastId := broadcastId u; isConnecting := v;
       isConnected := isConnected u; error := error u;
       viewerCount := viewerCount u; streamQuality := streamQuality u;
       connectionType := connectionType u |}).

Definition setIsConnected (v : bool) : viewer -> viewer :=
  with_st (fun u =>
    {| broadcastId := broadcastId u; isConnecting := isConnecting u;
       isConnected := v; error := error u;
       viewerCount := viewerCount u; streamQuality := streamQuality u;
       connectionType := connectionType u |}).

Definition setError (v : option string) : viewer -> viewer :=
  with_st (fun u =>
    {| broadcastId := broadcastId u; isConnecting := isConnecting u;
       isConnected := isConnected u; error := v;
       viewerCount := viewerCount u; streamQuality := streamQuality u;
       connectionType := connectionType u |}).

Definition setViewerCount (f : Z -> Z) : viewer -> viewer :=
  with_st (fun u =>
    {| broadcastId := broadcastId u; isConnecting := isConnecting u;
       isConnected := isConnected u; error := error u;
       viewerCount := f (viewerCount u); streamQuality := streamQuality u;
       connectionType := connectionType u |}).

Definition setStreamQuality (v : string) : viewer -> viewer :=
  with_st (fun u =>
    {| broadcastId := broadcastId u; isConnecting := isConnecting u;
       isConnected := isConnected u; error := error u;
       viewerCount := viewerCount u; streamQuality := v;
       connectionType := connectionType u |}).

Definition setConnectionType (v : option connection_type)
  : viewer -> viewer :=
  with_st (fun u =>
    {| broadcastId := broadcastId u; isConnecting := isConnecting u;
       isConnected := isConnected u; error := error u;
       viewerCount := viewerCount u; streamQuality := streamQuality u;
       connectionType := v |}).

Definition set_videoRef (v : option video) : viewer -> viewer :=
  with_rf (fun r =>
    {| videoRef := v; peerConnectionRef := peerConnectionRef r;
       websocketRef := websocketRef r;
       signalingWsRef := signalingWsRef r |}).

Definition set_peerConnectionRef (v : option handle) : viewer -> viewer :=
  with_rf (fun r =>
    {| videoRef := videoRef r; peerConnectionRef := v;
       websocketRef := websocketRef r;
       signalingWsRef := signalingWsRef r |}).

Definition set_websocketRef (v : option handle) : viewer -> viewer :=
  with_rf (fun r =>
    {| videoRef := videoRef r; peerConnectionRef := peerConnectionRef r;
       websocketRef := v; signalingWsRef := signalingWsRef r |}).

Definition set_signalingWsRef (v : option handle) : viewer -> viewer :=
  with_rf (fun r =>
    {| videoRef := videoRef r; peerConnectionRef := peerConnectionRef r;
       websocketRef := websocketRef r; signalingWsRef := v |}).

(** The status the header shows ([getStatusText], and the same
    conditional written inline in [StreamViewer]). *)
Inductive status_text :=
| StatusError | StatusConnected | StatusConnecting | StatusDisconnected.

Definition getStatusText (s : viewer) : status_text :=
  if Js.truthy_opt (error (st s)) then StatusError
  else if isConnected (st s) then StatusConnected
  else if isConnecting (st s) then StatusConnecting
  else StatusDisconnected.

(** *** Operations on browser objects *)

Definition new_websocket (port : Z) (path : string) (k : nat) (r : role)
  : websocket :=
  {| ws_port := port; ws_path := path; readyState := CONNECTING;
     closeFired := false; sent := []; ws_attempt := k; ws_role := r |}.

(** [new WebSocket(url)] throws a [SyntaxError] when the address has a
    fragment.  [getWebSocketUrl] gives [ws://<host><path>] and a host
    name holds no [#], so the constructor throws exactly when the path
    holds one. *)
Fixpoint has_fragment (path : string) : bool :=
  match path with
  | EmptyString => false
  | String c rest => (Ascii.eqb c "#" || has_fragment rest)%bool
  end.

Definition new_peer (k : nat) : peer :=
  {| pc_closed := false; remoteDescription := None;
     localDescription := None; remoteCandidates := []; pc_calls := [];
     pc_attempt := k |}.

Definition ws_with_readyState (r : ready_state) (w : websocket)
  : websocket :=
  {| ws_port := ws_port w; ws_path := ws_path w; readyState := r;
     closeFired := closeFired w; sent := sent w;
     ws_attempt := ws_attempt w; ws_role := ws_role w |}.

Definition ws_with_closeFired (w : websocket) : websocket :=
  {| ws_port := ws_port w; ws_path := ws_path w; readyState := CLOSED;
     closeFired := true; sent := sent w;
     ws_attempt := ws_attempt w; ws_role := ws_role w |}.

(** [ws.send(m)]: the message goes out on an open socket; on a closing
    or closed socket it is discarded, and on a connecting socket the
    call throws.  Every [send] of the source is the last statement of
    its handler, so the throw changes nothing either. *)
Definition ws_send_obj (m : out_message) (w : websocket) : websocket :=
  match readyState w with
  | OPEN =>
      {| ws_port := ws_port w; ws_path := ws_path w;
         readyState := readyState w; closeFired := closeFired w;
         sent := sent w ++ [m];
         ws_attempt := ws_attempt w; ws_role := ws_role w |}
  | _ => w
  end.

Definition ws_send (h : handle) (m : out_message) : viewer -> viewer :=
  with_sockets (alter (ws_send_obj m) h).

(** [ws.close()]: starts the closing handshake unless the socket is
    closing or closed already. *)
Definition ws_close_obj (w : websocket) : websocket :=
  match readyState w with
  | CLOSING | CLOSED => w
  | _ => ws_with_readyState CLOSING w
  end.

Definition ws_close (h : handle) : viewer -> viewer :=
  with_sockets (alter ws_close_obj h).

Definition pc_log (c : pc_call) (p : peer) : peer :=
  {| pc_closed := pc_closed p; remoteDescription := remoteDescription p;
     localDescription := localDescription p;
     remoteCandidates := remoteCandidates p;
     pc_calls := pc_calls p ++ [c]; pc_attempt := pc_attempt p |}.

(** [peerConnection.close()] *)
Definition pc_close_obj (p : peer) : peer :=
  let p := pc_log ClosePeer p in
  {| pc_closed := true; remoteDescription := remoteDescription p;
     localDescription := localDescription p;
     remoteCandidates := remoteCandidates p;
     pc_calls := pc_calls p; pc_attempt := pc_attempt p |}.

Definition pc_close (h : handle) : viewer -> viewer :=
  with_peers (alter pc_close_obj h).

(** [await setRemoteDescription(offer); answer = await createAnswer();
    await setLocalDescription(answer)].  On a closed connection the
    first call rejects and the rest of the handler is skipped ([None]).
    The answer the browser makes is written [answer_of offer]. *)
Definition answer_of (offer : description) : description :=
  "answer:" +:+ offer.

Definition pc_accept_offer (offer : description) (p : peer)
  : peer * option description :=
  let p := pc_log (SetRemoteDescription offer) p in
  if pc_closed p then (p, None)
  else
    let answer := answer_of offer in
    let p := pc_log CreateAnswer p in
    let p := pc_log (SetLocalDescription answer) p in
    ({| pc_closed := pc_closed p; remoteDescription := Some offer;
        localDescription := Some answer;
        remoteCandidates := remoteCandidates p;
        pc_calls := pc_calls p; pc_attempt := pc_attempt p |},
     Some answer).

(** [await addIceCandidate(c)]: the browser rejects the call on a closed
    connection and while there is no remote description; otherwise it
    takes the candidate (an absent candidate marks the end of the
    candidates and adds none). *)
Definition pc_addIceCandidate (c : option candidate) (p : peer) : peer :=
  let p := pc_log (AddIceCandidate c) p in
  if pc_closed p then p
  else
    match remoteDescription p, c with
    | Some _, Some c =>
        {| pc_closed := pc_closed p;
           remoteDescription := remoteDescription p;
           localDescription := localDescription p;
           remoteCandidates := remoteCandidates p ++ [c];
           pc_calls := pc_calls p; pc_attempt := pc_attempt p |}
    | _, _ => p
    end.

(** [clearTimeout(t)] *)
Definition clearTimeout (t : option timer) : option timer :=
  match t with
  | Some (Armed _) => Some Cleared
  | _ => t
  end.

(** *** Attempt fields *)

Definition a_with_webrtc (p : promise) (a : attempt) : attempt :=
  {| a_broadcastId := a_broadcastId a; a_isConnected := a_isConnected a;
     a_signaling := a_signaling a; a_peer := a_peer a; a_webrtc := p;
     a_signalingTimeout := a_signalingTimeout a; a_stream := a_stream a;
     a_websocket := a_websocket a;
     a_streamTimeout := a_streamTimeout a |}.

Definition a_with_signalingTimeout (t : option timer) (a : attempt)
  : attempt :=
  {| a_broadcastId := a_broadcastId a; a_isConnected := a_isConnected a;
     a_signaling := a_signaling a; a_peer := a_peer a;
     a_webrtc := a_webrtc a;
     a_signalingTimeout := t; a_stream := a_stream a;
     a_websocket := a_websocket a;
     a_streamTimeout := a_streamTimeout a |}.

Definition a_with_websocket (p : option promise) (a : attempt) : attempt :=
  {| a_broadcastId := a_broadcastId a; a_isConnected := a_isConnected a;
     a_signaling := a_signaling a; a_peer := a_peer a;
     a_webrtc := a_webrtc a;
     a_signalingTimeout := a_signalingTimeout a; a_stream := a_stream a;
     a_websocket := p;
     a_streamTimeout := a_streamTimeout a |}.

Definition a_with_streamTimeout (t : option timer) (a : attempt)
  : attempt :=
  {| a_broadcastId := a_broadcastId a; a_isConnected := a_isConnected a;
     a_signaling := a_signaling a; a_peer := a_peer a;
     a_webrtc := a_webrtc a;
     a_signalingTimeout := a_signalingTimeout a; a_stream := a_stream a;
     a_websocket := a_websocket a;
     a_streamTimeout := t |}.

Definition a_start_stream (h : handle) (t : option timer) (a : attempt)
  : attempt :=
  {| a_broadcastId := a_broadcastId a; a_isConnected := a_isConnected a;
     a_signaling := a_signaling a; a_peer := a_peer a;
     a_webrtc := a_webrtc a;
     a_signalingTimeout := a_signalingTimeout a; a_stream := Some h;
     a_websocket := Some Pending;
     a_streamTimeout := t |}.

(** The timer that [connectWebRTC] and [connectWebSocket] of
    [WebcamViewer] start with [setTimeout(..., 10000)]; [StreamViewer]
    starts none. *)
Definition connection_timeout (v : variant) : option timer :=
  match v with
  | WebcamViewer => Some (Armed 10000)
  | StreamViewer => None
  end.

(** *** [disconnect] *)

Definition disconnect (v : variant) (s : viewer) : viewer :=
  let s :=
    match peerConnectionRef (rf s) with
    | Some p => set_peerConnectionRef None (pc_close p s)
    | None => s
    end in
  let s :=
    match v with
    | WebcamViewer =>
        match signalingWsRef (rf s) with
        | Some h => set_signalingWsRef None (ws_close h s)
        | None => s
        end
    | StreamViewer => s
    end in
  let s :=
    match websocketRef (rf s) with
    | Some h => set_websocketRef None (ws_close h s)
    | None => s
    end in
  let s :=
    match videoRef (rf s) with
    | Some _ => set_videoRef (Some {| srcObject := None; src := "" |}) s
    | None => s
    end in
  let s := setIsConnected false s in
  let s := setIsConnecting false s in
  let s := setError None s in
  let s := setViewerCount (fun _ => 0) s in
  match v with
  | WebcamViewer => setConnectionType None s
  | StreamViewer => s
  end.

(** *** [connectWebSocket], [connectWebRTC], [connectToStream] *)

(** Settling the promise of [connectWebSocket], followed by what
    [connectToStream] does next: after [await connectWebSocket()] on
    success, the inner [catch] on failure.  A settled promise ignores
    further calls. *)
Definition resolve_websocket (v : variant) (k : nat) (s : viewer)
  : viewer :=
  match attempts s !! k with
  | Some a =>
      match a_websocket a with
      | Some Pending =>
          let s :=
            with_attempts (alter (a_with_websocket (Some Fulfilled)) k) s
          in
          match v with
          | WebcamViewer => setConnectionType (Some WebSocket) s
          | StreamViewer => s
          end
      | _ => s
      end
  | None => s
  end.

Definition both_failed_message (v : variant) : string :=
  match v with
  | StreamViewer =>
      "Failed to connect to stream. Please check the Broadcast ID and try again."
  | WebcamViewer =>
      "Unable to connect to stream. Please check the Broadcast ID and ensure the broadcaster is active."
  end.

Definition reject_websocket (v : variant) (k : nat) (reason : string)
    (s : viewer) : viewer :=
  match attempts s !! k with
  | Some a =>
      match a_websocket a with
      | Some Pending =>
          let s :=
            with_attempts
              (alter (a_with_websocket (Some (Rejected reason))) k) s in
          let s := setError (Some (both_failed_message v)) s in
          setIsConnecting false s
      | _ => s
      end
  | None => s
  end.

(** The promise executor of [connectWebSocket], run for attempt [k].
    When the constructor throws, nothing is created and no ref is set:
    the [catch] of the executor rejects the promise. *)
Definition connectWebSocket (v : variant) (k : nat) (s : viewer)
  : viewer :=
  match attempts s !! k with
  | None => s
  | Some a =>
      let id :=
        match v with
        | StreamViewer => a_broadcastId a
        | WebcamViewer => Js.trim (a_broadcastId a)
        end in
      if has_fragment ("/stream/" +:+ id) then
        let s :=
          with_attempts (alter (a_with_websocket (Some Pending)) k) s in
        reject_websocket v k "SyntaxError" s
      else
        let h := length (sockets s) in
        let s :=
          with_sockets
            (fun l => l ++ [new_websocket 8081 ("/stream/" +:+ id) k Frame])
            s in
        let s := set_websocketRef (Some h) s in
        with_attempts (alter (a_start_stream h (connection_timeout v)) k) s
  end.

(** Settling the promise of [connectWebRTC]: on success the statement
    after [await connectWebRTC()], on failure the outer [catch], which
    starts [connectWebSocket]. *)
Definition resolve_webrtc (v : variant) (k : nat) (s : viewer) : viewer :=
  match attempts s !! k with
  | Some a =>
      match a_webrtc a with
      | Pending =>
          let s := with_attempts (alter (a_with_webrtc Fulfilled) k) s in
          match v with
          | WebcamViewer => setConnectionType (Some WebRTC) s
          | StreamViewer => s
          end
      | _ => s
      end
  | None => s
  end.

Definition reject_webrtc (v : variant) (k : nat) (reason : string)
    (s : viewer) : viewer :=
  match attempts s !! k with
  | Some a =>
      match a_webrtc a with
      | Pending =>
          let s :=
            with_attempts (alter (a_with_webrtc (Rejected reason)) k) s in
          connectWebSocket v k s
      | _ => s
      end
  | None => s
  end.

(** The promise executor of [connectWebRTC]: it creates the signaling
    socket and the peer connection and installs their handlers.

    When the constructor of the signaling socket throws, the [catch] of
    the executor rejects the promise before any object exists or any
    ref is set.  The outer [catch] of [connectToStream] then calls
    [connectWebSocket], whose constructor is given the same id and
    throws as well ([fallback_throws_too] below), so its promise is
    rejected too and the inner [catch] sets the message and clears
    [isConnecting]. *)
Definition connectWebRTC (v : variant) (s : viewer) : viewer :=
  let k := length (attempts s) in
  let hs := length (sockets s) in
  let hp := length (peers s) in
  let id := broadcastId (st s) in
  if has_fragment ("/signaling/viewer/" +:+ id) then
    let s := setError (Some (both_failed_message v)) s in
    setIsConnecting false s
  else
    let a :=
      {| a_broadcastId := id; a_isConnected := isConnected (st s);
         a_signaling := hs; a_peer := hp; a_webrtc := Pending;
         a_signalingTimeout := connection_timeout v; a_stream := None;
         a_websocket := None; a_streamTimeout := None |} in
    let s :=
      with_sockets
        (fun l =>
           l ++ [new_websocket 8080 ("/signaling/viewer/" +:+ id) k
                   Signaling]) s in
    let s :=
      match v with
      | WebcamViewer => set_signalingWsRef (Some hs) s
      | StreamViewer => s
      end in
    let s := with_peers (fun l => l ++ [new_peer k]) s in
    let s := set_peerConnectionRef (Some hp) s in
    with_attempts (fun l => l ++ [a]) s.

Definition connectToStream (v : variant) (s : viewer) : viewer :=
  if Js.blank (broadcastId (st s)) then
    setError (Some "Please enter a valid Broadcast ID") s
  else
    let s := setIsConnecting true s in
    let s := setError None s in
    let s :=
      match v with
      | WebcamViewer => setConnectionType None s
      | StreamViewer => s
      end in
    connectWebRTC v s.

(** *** Events and handlers *)

Inductive connection_state :=
| CsNew | CsConnecting | CsConnected | CsDisconnected | CsFailed
| CsClosed.

(** A parsed message, by its [type] field, with the fields the handlers
    read (an absent field is [None]). *)
Inductive message :=
| Offer (offer : description)
| IceCandidate (cand : option candidate)
| StreamInfo (count : option Z) (quality : option string)
| ErrorMessage (text : option string)
| StreamEnded
| StreamNotFound
| OtherType.

(** [event.data]: a [Blob], or a text that [JSON.parse] accepts or not. *)
Inductive data :=
| Blob (url : string)
| Json (m : message)
| NotJson.

Inductive which_timer := SignalingTimer | StreamTimer.

Inductive event :=
| SocketOpen (h : handle)
| SocketMessage (h : handle) (d : data)
| SocketError (h : handle)
| SocketClose (h : handle) (code : Z)
| PeerTrack (p : handle) (stream0 : option nat)
| PeerIceCandidate (p : handle) (cand : option candidate)
| PeerConnectionState (p : handle) (cs : connection_state)
| TimerExpired (k : nat) (t : which_timer).

(** The broadcast id as the handlers of an attempt write it:
    [broadcastId] in [StreamViewer], [broadcastId.trim()] in
    [WebcamViewer]. *)
Definition attempt_id (v : variant) (a : attempt) : string :=
  match v with
  | StreamViewer => a_broadcastId a
  | WebcamViewer => Js.trim (a_broadcastId a)
  end.

Definition clear_signalingTimeout (v : variant) (k : nat) (s : viewer)
  : viewer :=
  match v with
  | WebcamViewer =>
      with_attempts
        (alter (fun a =>
                  a_with_signalingTimeout
                    (clearTimeout (a_signalingTimeout a)) a) k) s
  | StreamViewer => s
  end.

Definition clear_streamTimeout (v : variant) (k : nat) (s : viewer)
  : viewer :=
  match v with
  | WebcamViewer =>
      with_attempts
        (alter (fun a =>
                  a_with_streamTimeout
                    (clearTimeout (a_streamTimeout a)) a) k) s
  | StreamViewer => s
  end.

(** [signalingWs.onopen] (in [StreamViewer] the second assignment, which
    replaces the first). *)
Definition signaling_onopen (v : variant) (k : nat) (a : attempt)
    (s : viewer) : viewer :=
  let s := clear_signalingTimeout v k s in
  ws_send (a_signaling a) (JoinStream (attempt_id v a)) s.

(** [signalingWs.onerror] *)
Definition signaling_onerror (v : variant) (k : nat) (s : viewer)
  : viewer :=
  match v with
  | StreamViewer => reject_webrtc v k "Signaling connection failed" s
  | WebcamViewer =>
      let s := clear_signalingTimeout v k s in
      reject_webrtc v k "Signaling server connection failed" s
  end.

(** [signalingWs.onmessage].  A text that does not parse makes
    [JSON.parse] throw, and so do the rejected calls on the peer
    connection: the handler stops there ([WebcamViewer] catches and
    logs, [StreamViewer] leaves the rejection unhandled). *)
Definition signaling_onmessage (v : variant) (k : nat) (a : attempt)
    (d : data) (s : viewer) : viewer :=
  match d with
  | Json (Offer offer) =>
      match peers s !! a_peer a with
      | Some p =>
          let '(p', answer) := pc_accept_offer offer p in
          let s := with_peers (fun l => <[a_peer a := p']> l) s in
          match answer with
          | Some answer =>
              ws_send (a_signaling a)
                (AnswerOut answer (attempt_id v a)) s
          | None => s
          end
      | None => s
      end
  | Json (IceCandidate c) =>
      match v, c with
      | WebcamViewer, None => s
      | _, _ => with_peers (alter (pc_addIceCandidate c) (a_peer a)) s
      end
  | Json (StreamInfo n q) =>
      let s := setViewerCount (fun _ => Js.num_or_zero n) s in
      setStreamQuality (Js.or_default q "HD") s
  | Json (ErrorMessage m) =>
      reject_webrtc v k (Js.or_default m "Stream connection failed") s
  | Json StreamEnded =>
      let s := setError (Some "Stream has ended") s in
      disconnect v s
  | Json StreamNotFound =>
      match v with
      | WebcamViewer =>
          reject_webrtc v k
            "Broadcast ID not found. Please check the ID and try again." s
      | StreamViewer => s
      end
  | Json OtherType => s
  | Blob _ | NotJson => s
  end.

(** [signalingWs.onclose]: [WebcamViewer] only; [isConnected] is the
    value its closure captured. *)
Definition signaling_onclose (v : variant) (a : attempt) (s : viewer)
  : viewer :=
  match v with
  | WebcamViewer =>
      if a_isConnected a then setError (Some "Signaling connection lost") s
      else s
  | StreamViewer => s
  end.

(** [peerConnection.ontrack] *)
Definition peer_ontrack (v : variant) (k : nat) (stream0 : option nat)
    (s : viewer) : viewer :=
  match videoRef (rf s), stream0 with
  | Some vid, Some stream =>
      let s :=
        set_videoRef (Some {| srcObject := Some stream; src := src vid |})
          s in
      let s := setIsConnected true s in
      let s := setIsConnecting false s in
      let s :=
        match v with
        | WebcamViewer => setViewerCount (fun prev => prev + 1) s
        | StreamViewer => s
        end in
      resolve_webrtc v k s
  | _, _ => s
  end.

(** [peerConnection.onicecandidate]: [WebcamViewer] sends on an open
    socket only; in [StreamViewer] the [send] has no effect on a socket
    that is not open (see [ws_send_obj]). *)
Definition peer_onicecandidate (v : variant) (a : attempt)
    (c : option candidate) (s : viewer) : viewer :=
  match c with
  | Some c => ws_send (a_signaling a) (IceCandidateOut c (attempt_id v a)) s
  | None => s
  end.

(** [peerConnection.onconnectionstatechange] *)
Definition peer_onconnectionstatechange (v : variant) (k : nat)
    (cs : connection_state) (s : viewer) : viewer :=
  match v with
  | StreamViewer =>
      match cs with
      | CsFailed => reject_webrtc v k "WebRTC connection failed" s
      | _ => s
      end
  | WebcamViewer =>
      match cs with
      | CsConnected => setIsConnecting false (setIsConnected true s)
      | CsDisconnected | CsFailed =>
          setIsConnected false
            (setError (Some "Connection lost or failed") s)
      | CsClosed => setIsConnected false s
      | _ => s
      end
  end.

(** [ws.onopen] of the frame socket *)
Definition stream_onopen (v : variant) (k : nat) (s : viewer) : viewer :=
  let s := clear_streamTimeout v k s in
  let s := setIsConnected true s in
  let s := setIsConnecting false s in
  resolve_websocket v k s.

(** [ws.onmessage] of the frame socket.  The object URL of a frame is
    given with the event; its later [revokeObjectURL] in [WebcamViewer]
    changes nothing recorded here. *)
Definition stream_onmessage (v : variant) (k : nat) (d : data)
    (s : viewer) : viewer :=
  match d with
  | Blob url =>
      match videoRef (rf s) with
      | Some vid =>
          set_videoRef (Some {| srcObject := srcObject vid; src := url |})
            s
      | None => s
      end
  | Json (StreamInfo n q) =>
      let s := setViewerCount (fun _ => Js.num_or_zero n) s in
      setStreamQuality (Js.or_default q "HD") s
  | Json (ErrorMessage m) =>
      let s := setError m s in
      reject_websocket v k (default "" m) s
  | Json StreamEnded =>
      match v with
      | WebcamViewer =>
          let s := setError (Some "Stream has ended") s in
          disconnect v s
      | StreamViewer => s
      end
  | Json _ => s
  | NotJson => s
  end.

(** [ws.onerror] of the frame socket *)
Definition stream_onerror (v : variant) (k : nat) (s : viewer) : viewer :=
  let s := clear_streamTimeout v k s in
  reject_websocket v k "WebSocket connection failed" s.

(** [ws.onclose] of the frame socket *)
Definition stream_onclose (v : variant) (code : Z) (s : viewer) : viewer :=
  let s := setIsConnected false s in
  match v with
  | StreamViewer => setError (Some "Connection lost") s
  | WebcamViewer =>
      if negb (code =? 1000) then setError (Some "Connection lost") s
      else s
  end.

(** The callbacks given to [setTimeout] ([WebcamViewer]). *)
Definition signaling_ontimeout (v : variant) (k : nat) (s : viewer)
  : viewer :=
  reject_webrtc v k "Signaling connection timeout" s.

Definition stream_ontimeout (v : variant) (k : nat) (s : viewer)
  : viewer :=
  reject_websocket v k "WebSocket connection timeout" s.

(** *** Delivery of an event by the browser

    An event the browser cannot raise in the present state of its object
    leaves the state as it is: [open] comes to a connecting socket,
    [message] to an open one, [error] to one that is not closed yet,
    [close] once per socket; a closed peer connection raises nothing; a
    timer expires only while armed. *)
Definition deliver (v : variant) (e : event) (s : viewer) : viewer :=
  match e with
  | SocketOpen h =>
      match sockets s !! h with
      | Some w =>
          match readyState w, attempts s !! ws_attempt w with
          | CONNECTING, Some a =>
              let s := with_sockets (alter (ws_with_readyState OPEN) h) s in
              match ws_role w with
              | Signaling => signaling_onopen v (ws_attempt w) a s
              | Frame => stream_onopen v (ws_attempt w) s
              end
          | _, _ => s
          end
      | None => s
      end
  | SocketMessage h d =>
      match sockets s !! h with
      | Some w =>
          match readyState w, attempts s !! ws_attempt w with
          | OPEN, Some a =>
              match ws_role w with
              | Signaling => signaling_onmessage v (ws_attempt w) a d s
              | Frame => stream_onmessage v (ws_attempt w) d s
              end
          | _, _ => s
          end
      | None => s
      end
  | SocketError h =>
      match sockets s !! h with
      | Some w =>
          match readyState w, closeFired w with
          | CLOSED, _ | _, true => s
          | _, false =>
              let s :=
                with_sockets (alter (ws_with_readyState CLOSED) h) s in
              match ws_role w with
              | Signaling => signaling_onerror v (ws_attempt w) s
              | Frame => stream_onerror v (ws_attempt w) s
              end
          end
      | None => s
      end
  | SocketClose h code =>
      match sockets s !! h with
      | Some w =>
          match closeFired w, attempts s !! ws_attempt w with
          | false, Some a =>
              let s := with_sockets (alter ws_with_closeFired h) s in
              match ws_role w with
              | Signaling => signaling_onclose v a s
              | Frame => stream_onclose v code s
              end
          | _, _ => s
          end
      | None => s
      end
  | PeerTrack p stream0 =>
      match peers s !! p with
      | Some pc =>
          if pc_closed pc then s else peer_ontrack v (pc_attempt pc) stream0 s
      | None => s
      end
  | PeerIceCandidate p c =>
      match peers s !! p with
      | Some pc =>
          match pc_closed pc, attempts s !! pc_attempt pc with
          | false, Some a => peer_onicecandidate v a c s
          | _, _ => s
          end
      | None => s
      end
  | PeerConnectionState p cs =>
      match peers s !! p with
      | Some pc =>
          if pc_closed pc then s
          else peer_onconnectionstatechange v (pc_attempt pc) cs s
      | None => s
      end
  | TimerExpired k SignalingTimer =>
      match attempts s !! k with
      | Some a =>
          match a_signalingTimeout a with
          | Some (Armed _) =>
              let s :=
                with_attempts
                  (alter (a_with_signalingTimeout (Some Fired)) k) s in
              signaling_ontimeout v k s
          | _ => s
          end
      | None => s
      end
  | TimerExpired k StreamTimer =>
      match attempts s !! k with
      | Some a =>
          match a_streamTimeout a with
          | Some (Armed _) =>
              let s :=
                with_attempts
                  (alter (a_with_streamTimeout (Some Fired)) k) s in
              stream_ontimeout v k s
          | _ => s
          end
      | None => s
      end
  end.

(** *** The view: which controls call the operations *)

(** The connect button: rendered while not connected ([StreamViewer]
    hides the whole form, [WebcamViewer] shows the disconnect button in
    its place), disabled while connecting or while the id is blank. *)
Definition clickConnect (v : variant) (s : viewer) : viewer :=
  if isConnected (st s) then s
  else if (isConnecting (st s) || Js.blank (broadcastId (st s)))%bool
       then s
       else connectToStream v s.

(** [handleKeyPress] of the id input ([WebcamViewer]; the input is
    always rendered and is disabled while connecting). *)
Definition handleKeyPress (v : variant) (key : string) (s : viewer)
  : viewer :=
  match v with
  | WebcamViewer =>
      if (String.eqb key "Enter" && negb (isConnecting (st s))
          && negb (Js.blank (broadcastId (st s))))%bool
      then connectToStream v s
      else s
  | StreamViewer => s
  end.

(** The "Try Again" button of the error box, rendered while [error] is
    set. *)
Definition clickTryAgain (v : variant) (s : viewer) : viewer :=
  if Js.truthy_opt (error (st s)) then
    let s := setError None s in
    match v with
    | StreamViewer => disconnect v s
    | WebcamViewer =>
        if negb (Js.blank (broadcastId (st s))) then connectToStream v s
        else s
    end
  else s.

(** The disconnect button, rendered while connected. *)
Definition clickDisconnect (v : variant) (s : viewer) : viewer :=
  if isConnected (st s) then disconnect v s else s.

(** What the user and the browser do.  [TypeId value] is a change of the
    id input after which [broadcastId] holds [value]: the text of the
    input in [StreamViewer], that text upper-cased in [WebcamViewer]
    (whose input takes at most 20 code units).  The actions range over
    every text, the upper-cased ones included. *)
Inductive action :=
| TypeId (value : string)
| ClickConnect
| PressKey (key : string)
| ClickTryAgain
| ClickDisconnect
| Unmount
| Browser (e : event).

Definition act (v : variant) (a : action) (s : viewer) : viewer :=
  match a with
  | TypeId value => setBroadcastId value s
  | ClickConnect => clickConnect v s
  | PressKey key => handleKeyPress v key s
  | ClickTryAgain => clickTryAgain v s
  | ClickDisconnect => clickDisconnect v s
  | Unmount => disconnect v s
  | Browser e => deliver v e s
  end.

Definition run (v : variant) (tr : list action) (s : viewer) : viewer :=
  fold_left (fun acc a => act v a acc) tr s.

(** [connect(id)]: the id is put in the state, then [connectToStream]
    is called. *)
Definition connect (v : variant) (id : string) (s : viewer) : viewer :=
  connectToStream v (setBroadcastId id s).

(** *** Observations *)

Definition ws_live (w : websocket) : bool :=
  match readyState w with
  | CONNECTING | OPEN => true
  | CLOSING | CLOSED => false
  end.

Definition pc_live (p : peer) : bool := negb (pc_closed p).

(** Number of transports that are still live. *)
Definition live_transports (s : viewer) : nat :=
  length (filter (fun w => ws_live w = true) (sockets s))
  + length (filter (fun p => pc_live p = true) (peers s)).

(** Attempts that own a live transport. *)
Definition live_owners (s : viewer) : list nat :=
  map ws_attempt (filter (fun w => ws_live w = true) (sockets s))
  ++ map pc_attempt (filter (fun p => pc_live p = true) (peers s)).

(** Attempts whose negotiation is still running: one of the two
    promises is pending. *)
Definition negotiating (a : attempt) : bool :=
  match a_webrtc a, a_websocket a with
  | Pending, _ => true
  | _, Some Pending => true
  | _, _ => false
  end.

Definition running_negotiations (s : viewer) : nat :=
  length (filter (fun a => negotiating a = true) (attempts s)).

(** *** Signaling messages of one attempt, in receipt order *)

Definition deliver_messages (v : variant) (h : handle)
    (ms : list message) (s : viewer) : viewer :=
  fold_left (fun acc m => deliver v (SocketMessage h (Json m)) acc) ms s.

(** Messages of the offer and candidate exchange. *)
Definition exchange_message (m : message) : bool :=
  match m with
  | Offer _ | IceCandidate _ | StreamInfo _ _ | OtherType => true
  | ErrorMessage _ | StreamEnded | StreamNotFound => false
  end.

(** The candidates among [ms] that arrive once a remote description is
    set ([has_remote] tells whether one is set before [ms]). *)
Fixpoint candidates_after_offer (has_remote : bool) (ms : list message)
  : list candidate :=
  match ms with
  | [] => []
  | Offer _ :: r => candidates_after_offer true r
  | IceCandidate (Some c) :: r =>
      (if has_remote then [c] else []) ++ candidates_after_offer has_remote r
  | _ :: r => candidates_after_offer has_remote r
  end.

(** The calls the handler makes on the peer connection for one message,
    at the time the message is received. *)
Definition calls_on_receipt (v : variant) (m : message) : list pc_call :=
  match m with
  | Offer o =>
      [SetRemoteDescription o; CreateAnswer;
       SetLocalDescription (answer_of o)]
  | IceCandidate c =>
      match v, c with
      | WebcamViewer, None => []
      | _, _ => [AddIceCandidate c]
      end
  | _ => []
  end.

Fixpoint calls_of (v : variant) (ms : list message) : list pc_call :=
  match ms with
  | [] => []
  | m :: r => calls_on_receipt v m ++ calls_of v r
  end.

Definition has_remote (p : peer) : bool :=
  match remoteDescription p with Some _ => true | None => false end.

(** Socket [h] is an open signaling socket whose handlers belong to
    attempt [a]. *)
Definition signaling_ready (s : viewer) (h : handle) (a : attempt)
  : Prop :=
  exists w, sockets s !! h = Some w /\ readyState w = OPEN
            /\ ws_role w = Signaling
            /\ attempts s !! ws_attempt w = Some a.

Definition is_offer (m : message) : bool :=
  match m with Offer _ => true | _ => false end.

End Viewer.

(** ** [getWebSocketUrl] of the viewers *)
Module Url.

Definition is_digit (c : ascii) : bool :=
  let n := nat_of_ascii c in (Nat.leb 48 n && Nat.leb n 57)%bool.

Definition is_dash (c : ascii) : bool := Nat.eqb (nat_of_ascii c) 45.

Fixpoint all_digits (s : string) : bool :=
  match s with
  | EmptyString => true
  | String c r => (is_digit c && all_digits r)%bool
  end.

(** The text after a leading ["--"], if there is one. *)
Definition after_dashes (s : string) : option string :=
  match s with
  | String a (String b r) =>
      if (is_dash a && is_dash b)%bool then Some r else None
  | _ => None
  end.

Fixpoint skip_digits (s : string) : string :=
  match s with
  | EmptyString => EmptyString
  | String c r => if is_digit c then skip_digits r else s
  end.

(** A match of [/--\d+--/] at the start of [s]: the text after it.  The
    digits are taken greedily; the character after them is not a digit,
    so no shorter run of digits can match either. *)
Definition match_here (s : string) : option string :=
  match after_dashes s with
  | Some (String d r) =>
      if is_digit d then after_dashes (skip_digits r) else None
  | _ => None
  end.

(** [s.replace(/--\d+--/, "--" + rep + "--")]: the leftmost match is
    replaced, the rest of the text is kept; without a match the text is
    returned as it is.  ([rep] holds no [$], so the replacement is taken
    literally.) *)
Fixpoint replace_segment (rep : string) (s : string) : string :=
  match s with
  | EmptyString => EmptyString
  | String c r =>
      match match_here s with
      | Some rest => "--" +:+ rep +:+ "--" +:+ rest
      | None => String c (replace_segment rep r)
      end
  end.

(** Whether the pattern matches somewhere in [s]. *)
Fixpoint has_segment (s : string) : bool :=
  match s with
  | EmptyString => false
  | String c r =>
      match match_here s with
      | Some _ => true
      | None => has_segment r
      end
  end.

(** [getWebSocketUrl(port, path)], with [window.location.hostname] as a
    parameter; the port is a non-negative integer, written in decimal by
    the template literal. *)
Definition getWebSocketUrl (hostname : string) (port : N) (path : string)
  : string :=
  let wsHostname := replace_segment (pretty port) hostname in
  "ws://" +:+ wsHostname +:+ path.

End Url.

(** ** The image state of [Index.tsx] *)
Module Dashboard.

Record CapturedImage :=
  { id : string; base64 : string; timestamp : string }.

(** The [useState] cells fed by the broker's messages. *)
Record images :=
  { videoStream : string;
    capturedImages : list CapturedImage;
    frameCount : Z }.

Definition initial : images :=
  {| videoStream := ""; capturedImages := []; frameCount := 0 |}.

(** What the effect reads from the clock when it runs:
    [Date.now().toString()] and [new Date().toISOString()]. *)
Record clock := { now : string; iso : string }.

(** The effect on [lastMessage]. *)
Definition onLastMessage (c : clock) (lastMessage : option MQTT.last_message)
    (g : images) : images :=
  match lastMessage with
  | None => g
  | Some m =>
      if String.eqb (MQTT.m_topic m) "userxyz/device/cam/stream" then
        {| videoStream := "data:image/jpeg;base64," +:+ MQTT.m_message m;
           capturedImages := capturedImages g;
           frameCount := frameCount g + 1 |}
      else if String.eqb (MQTT.m_topic m) "userxyz/device/cam/capture" then
        let newImage :=
          {| id := now c;
             base64 := "data:image/jpeg;base64," +:+ MQTT.m_message m;
             timestamp := iso c |} in
        {| videoStream := videoStream g;
           capturedImages := newImage :: capturedImages g;
           frameCount := frameCount g |}
      else g
  end.

(** The effect runs after a committed render whose [lastMessage] is a
    new object.  React may commit once for several updates of the
    hook's state: a batch is the messages the hook stored in
    [lastMessage] between two commits, in order of arrival, and the
    effect sees the last of them only.  Without batching every batch
    holds one message. *)
Definition onCommit (c : clock) (batch : list MQTT.last_message)
    (g : images) : images :=
  onLastMessage c (last batch) g.

Definition onCommits (bs : list (clock * list MQTT.last_message))
    (g : images) : images :=
  fold_left (fun acc cb => onCommit (fst cb) (snd cb) acc) bs g.

(** The messages the effect sees, each with the clock of its commit,
    and all the messages of the batches. *)
Definition committed (bs : list (clock * list MQTT.last_message))
  : list (clock * MQTT.last_message) :=
  flat_map (fun cb => match last (snd cb) with
                      | Some m => [(fst cb, m)]
                      | None => []
                      end) bs.

Definition received (bs : list (clock * list MQTT.last_message))
  : list (clock * MQTT.last_message) :=
  flat_map (fun cb => map (pair (fst cb)) (snd cb)) bs.

(** [deleteImage(imageId)] *)
Definition deleteImage (imageId : string) (g : images) : images :=
  {| videoStream := videoStream g;
     capturedImages :=
       List.filter (fun img => negb (String.eqb (id img) imageId))
         (capturedImages g);
     frameCount := frameCount g |}.

(** [text.replace(/[:.]/g, '-')] *)
Definition dash_char (c : ascii) : ascii :=
  if (Nat.eqb (nat_of_ascii c) 58 || Nat.eqb (nat_of_ascii c) 46)%bool
  then "-"%char else c.

Fixpoint replace_colon_dot (s : string) : string :=
  match s with
  | EmptyString => EmptyString
  | String c r => String (dash_char c) (replace_colon_dot r)
  end.

(** The file name [downloadImage] gives the link; [isoText] is the text
    [new Date(image.timestamp).toISOString()] returns. *)
Definition download_name (isoText : string) : string :=
  "esp32cam_" +:+ replace_colon_dot isoText +:+ ".jpg".

(** The images built from the capture messages among [ms], newest
    first, and the number of stream messages among them. *)
Fixpoint captures_of (ms : list (clock * MQTT.last_message))
  : list CapturedImage :=
  match ms with
  | [] => []
  | (c, m) :: r =>
      if String.eqb (MQTT.m_topic m) "userxyz/device/cam/capture" then
        captures_of r
        ++ [{| id := now c;
               base64 := "data:image/jpeg;base64," +:+ MQTT.m_message m;
               timestamp := iso c |}]
      else captures_of r
  end.

Fixpoint frames_of (ms : list (clock * MQTT.last_message)) : Z :=
  match ms with
  | [] => 0
  | (_, m) :: r =>
      (if String.eqb (MQTT.m_topic m) "userxyz/device/cam/stream"
       then 1 else 0) + frames_of r
  end.

(** How often a character occurs in a text. *)
Fixpoint occurrences (c : ascii) (s : string) : nat :=
  match s with
  | EmptyString => O
  | String d r =>
      (if Ascii.eqb c d then 1%nat else 0%nat) + occurrences c r
  end%nat.

End Dashboard.

(** ** Traces of the broker client and of the viewers *)
Module Trace.

(** Number of [connect] events in a trace. *)
Fixpoint connects (tr : list MQTT.event) : nat :=
  match tr with
  | [] => 0
  | MQTT.OnConnect :: r => S (connects r)
  | _ :: r => connects r
  end.

(** The [lastMessage] a trace leaves, starting from [prev]: the latest
    message on one of the two image topics. *)
Fixpoint latest_image (prev : option MQTT.last_message)
    (tr : list MQTT.event) : option MQTT.last_message :=
  match tr with
  | [] => prev
  | MQTT.OnMessage topic b64 ts :: r =>
      latest_image
        (if MQTT.is_image_topic topic
         then Some {| MQTT.m_topic := topic; MQTT.m_message := b64;
                      MQTT.m_timestamp := ts |}
         else prev) r
  | _ :: r => latest_image prev r
  end.

(** The subscriptions [n] [connect] events request. *)
Fixpoint subscriptions (n : nat) : list (string * Z) :=
  match n with
  | O => []
  | S n =>
      [("userxyz/device/cam/stream", 1); ("userxyz/device/cam/capture", 1)]
      ++ subscriptions n
  end.

End Trace.

(** ** What the viewers send *)
Module Protocol.
Import Viewer.

(** An answer or a candidate carrying the id [id]. *)
Definition later_message (id : string) (m : out_message) : Prop :=
  match m with
  | AnswerOut _ i | IceCandidateOut _ i => i = id
  | JoinStream _ => False
  end.

(** Nothing yet, or [join-stream] for [id] followed by answers and
    candidates for [id]. *)
Definition join_first (id : string) (ms : list out_message) : Prop :=
  ms = []
  \/ exists rest, ms = JoinStream id :: rest /\ Forall (later_message id) rest.

(** Socket [w] at handle [h].  A signaling socket is the one of its
    attempt, at port 8080 and [/signaling/viewer/<id>]; it has sent
    nothing while connecting and [join-stream] once open.  A frame
    socket is at port 8081 and [/stream/<id>] for the id of its attempt
    and has sent nothing. *)
Definition socket_ok (v : variant) (at_ : list attempt) (h : nat)
    (w : websocket) : Prop :=
  exists a,
    at_ !! ws_attempt w = Some a
    /\ match ws_role w with
       | Frame =>
           sent w = [] /\ ws_port w = 8081
           /\ ws_path w = "/stream/" +:+ attempt_id v a
       | Signaling =>
           a_signaling a = h /\ ws_port w = 8080
           /\ ws_path w = "/signaling/viewer/" +:+ a_broadcastId a
           /\ join_first (attempt_id v a) (sent w)
           /\ (readyState w = CONNECTING -> sent w = [])
           /\ (readyState w = OPEN -> sent w <> [])
       end.

(** An id that passes the validation of [connectToStream] and that the
    constructor of the sockets accepts. *)
Definition id_ok (id : string) : Prop :=
  Js.blank id = false /\ has_fragment id = false.

(** Every attempt has such an id and owns its signaling socket; every
    socket is as [socket_ok] says. *)
Definition wf (v : variant) (s : viewer) : Prop :=
  (forall k a,
      attempts s !! k = Some a ->
      exists w, sockets s !! a_signaling a = Some w
                /\ ws_role w = Signaling /\ ws_attempt w = k)
  /\ (forall h w, sockets s !! h = Some w -> socket_ok v (attempts s) h w)
  /\ (forall k a, attempts s !! k = Some a -> id_ok (a_broadcastId a)).

(** A change of a socket that keeps its address and what was sent and
    either leaves the ready state or moves it towards closed; a frame
    socket may also open. *)
Definition socket_change (w w' : websocket) : Prop :=
  ws_role w' = ws_role w /\ ws_attempt w' = ws_attempt w
  /\ sent w' = sent w /\ ws_port w' = ws_port w /\ ws_path w' = ws_path w
  /\ (ws_role w = Frame \/ readyState w' = readyState w
      \/ readyState w' = CLOSING \/ readyState w' = CLOSED).

(** A change of an attempt that keeps the id and the signaling socket. *)
Definition attempt_change (f : attempt -> attempt) : Prop :=
  forall a, a_signaling (f a) = a_signaling a
            /\ a_broadcastId (f a) = a_broadcastId a.

(** The viewer is not connecting and connected at once. *)
Definition exclusive_flags (s : viewer) : Prop :=
  (isConnecting (st s) && isConnected (st s))%bool = false.

End Protocol.

(** * Properties *)

(** ** Strings *)

Lemma trim_end_empty (s : string) :
  Js.is_empty (Js.trim_end s) = Js.all_white s.
Proof.
  induction s as [|c r IH]; simpl; [reflexivity|].
  rewrite IH. destruct (Js.is_white_space c); simpl; [|reflexivity].
  destruct (Js.all_white r); reflexivity.
Qed.

Lemma trim_start_all_white (s : string) :
  Js.all_white (Js.trim_start s) = Js.all_white s.
Proof.
  induction s as [|c r IH]; simpl; [reflexivity|].
  destruct (Js.is_white_space c) eqn:E; simpl; [exact IH|].
  rewrite E. reflexivity.
Qed.

(** A string is blank exactly when it is empty or made of white space. *)
Lemma blank_all_white (s : string) : Js.blank s = Js.all_white s.
Proof.
  unfold Js.blank, Js.truthy, Js.trim.
  rewrite negb_involutive, trim_end_empty. apply trim_start_all_white.
Qed.

(** The constructor of a socket looks at the id only: the fixed part of
    the path holds no [#], and trimming removes none. *)
Lemma has_fragment_app (a b : string) :
  Viewer.has_fragment (a +:+ b)
  = (Viewer.has_fragment a || Viewer.has_fragment b)%bool.
Proof.
  induction a as [|c a IH]; [reflexivity|].
  change (String c a +:+ b) with (String c (a +:+ b)).
  cbn [Viewer.has_fragment]. rewrite IH, orb_assoc. reflexivity.
Qed.

Lemma white_space_not_hash (c : ascii) :
  Js.is_white_space c = true -> Ascii.eqb c "#" = false.
Proof.
  intros H. apply Ascii.eqb_neq. intros ->. discriminate H.
Qed.

Lemma has_fragment_trim_start (s : string) :
  Viewer.has_fragment (Js.trim_start s) = Viewer.has_fragment s.
Proof.
  induction s as [|c r IH]; [reflexivity|]. cbn [Js.trim_start].
  destruct (Js.is_white_space c) eqn:E; [|reflexivity].
  cbn [Viewer.has_fragment]. rewrite IH, (white_space_not_hash c E).
  reflexivity.
Qed.

Lemma has_fragment_trim_end (s : string) :
  Viewer.has_fragment (Js.trim_end s) = Viewer.has_fragment s.
Proof.
  induction s as [|c r IH]; [reflexivity|]. cbn [Js.trim_end].
  destruct (Js.is_white_space c && Js.is_empty (Js.trim_end r))%bool eqn:E.
  - apply andb_true_iff in E as [Ec Er].
    cbn [Viewer.has_fragment]. rewrite <- IH, (white_space_not_hash c Ec).
    destruct (Js.trim_end r); [reflexivity|discriminate Er].
  - cbn [Viewer.has_fragment]. rewrite IH. reflexivity.
Qed.

Lemma has_fragment_trim (s : string) :
  Viewer.has_fragment (Js.trim s) = Viewer.has_fragment s.
Proof.
  unfold Js.trim. rewrite has_fragment_trim_end. apply has_fragment_trim_start.
Qed.

Lemma has_fragment_signaling (id : string) :
  Viewer.has_fragment ("/signaling/viewer/" +:+ id) = Viewer.has_fragment id.
Proof. rewrite has_fragment_app. reflexivity. Qed.

Lemma has_fragment_stream (v : Viewer.variant) (a : Viewer.attempt) :
  Viewer.has_fragment ("/stream/" +:+ Viewer.attempt_id v a)
  = Viewer.has_fragment (Viewer.a_broadcastId a).
Proof.
  rewrite has_fragment_app. cbn [orb Viewer.has_fragment Ascii.eqb].
  destruct v; [reflexivity|]. apply has_fragment_trim.
Qed.

(** The fallback is asked for the id the primary attempt was asked for
    ([WebcamViewer] trims it), so its constructor throws exactly when
    the first one does. *)
Lemma fallback_throws_too (v : Viewer.variant) (id : string) :
  Viewer.has_fragment
    ("/stream/" +:+ match v with
                    | Viewer.StreamViewer => id
                    | Viewer.WebcamViewer => Js.trim id
                    end)
  = Viewer.has_fragment ("/signaling/viewer/" +:+ id).
Proof.
  rewrite has_fragment_signaling, has_fragment_app.
  cbn [orb Viewer.has_fragment Ascii.eqb].
  destruct v; [reflexivity|]. apply has_fragment_trim.
Qed.

(** ** The broker client *)

Section Broker.
Import MQTT.

Lemma flag_follows_status_run (tr : list event) :
  forall (r : bool) (h : hook),
    emission_order r tr = true ->
    flag_follows_status r h ->
    connectionStatus (state (run tr h)) <> Connected ->
    isConnected (state (run tr h)) = false.
Proof.
  induction tr as [|e tr IH]; intros r h Hord [Hr Hs] Hfin.
  - simpl in *. auto.
  - destruct e; simpl in Hord; cbn [run fold_left] in *.
    + apply (IH false); [exact Hord| |exact Hfin].
      split; [discriminate|]. simpl. intros Hc. congruence.
    + apply (IH r); [exact Hord| |exact Hfin].
      unfold handle. destruct (is_image_topic topic); split; simpl; auto.
    + apply (IH r); [exact Hord| |exact Hfin]. split; simpl; auto.
    + apply (IH r); [exact Hord| |exact Hfin]. split; simpl; auto.
    + apply andb_true_iff in Hord as [-> Hord].
      apply (IH true); [exact Hord| |exact Hfin]. split; simpl; auto.
    + apply (IH r); [exact Hord| |exact Hfin]. split; simpl; auto.
    + apply (IH true); [exact Hord| |exact Hfin]. split; simpl; auto.
Qed.

Lemma mounted_flag (o : connect_outcome) :
  flag_follows_status false (connectToMQTT o initial).
Proof. destruct o; split; simpl; auto; discriminate. Qed.

End Broker.

Section BrokerClaims.
Import MQTT.

(** C6.  [publishMessage] issued while the broker client is not
    connected publishes nothing and returns [false]; this includes every
    state the hook reaches with a status other than [Connected]
    ([Reconnecting] among them) when the client emits its events in
    mqtt.js's order.  While connected it publishes the message once, at
    QoS 1, and returns [true].  The function is total: no branch
    throws. *)
Theorem C6_publish_requires_connection :
  (forall (topic payload : string) (h : hook),
      (client (state h) && isConnected (state h))%bool = false ->
      publishMessage topic payload h = (false, h))
  /\ (forall (topic payload : string) (h : hook),
        (client (state h) && isConnected (state h))%bool = true ->
        fst (publishMessage topic payload h) = true
        /\ state (snd (publishMessage topic payload h)) = state h
        /\ published (broker (snd (publishMessage topic payload h)))
           = published (broker h)
             ++ [{| p_topic := topic; p_message := payload; p_qos := 1 |}])
  /\ (forall (o : connect_outcome) (tr : list event)
             (topic payload : string),
        emission_order false tr = true ->
        connectionStatus (state (run tr (connectToMQTT o initial)))
          <> Connected ->
        publishMessage topic payload (run tr (connectToMQTT o initial))
        = (false, run tr (connectToMQTT o initial))).
Proof.
  split; [|split].
  - intros topic payload h H. unfold publishMessage. rewrite H. reflexivity.
  - intros topic payload h H. unfold publishMessage. rewrite H. simpl. auto.
  - intros o tr topic payload Hord Hst.
    unfold publishMessage.
    rewrite (flag_follows_status_run tr false _ Hord (mounted_flag o) Hst).
    rewrite andb_false_r. reflexivity.
Qed.

Lemma C6_publish_while_reconnecting_witness :
  let h := run [OnConnect; OnClose; OnOffline; OnReconnect]
             (connectToMQTT Returned initial) in
  connectionStatus (state h) = Reconnecting
  /\ publishMessage "userxyz/device/control/forward" "1" h = (false, h).
Proof.
  split; [reflexivity|].
  apply (proj2 (proj2 C6_publish_requires_connection)).
  - reflexivity.
  - simpl. discriminate.
Defined.

End BrokerClaims.

Section ControlClaims.
Import MQTT Control.

(** C10.  The active set changes only with a successful publish: a
    press adds the direction exactly when publishing ["1"] returns
    [true], a release removes it exactly when publishing ["0"] returns
    [true], and otherwise the set is left as it was.  While the broker
    is not connected a press or a release publishes nothing and leaves
    the page unchanged, so a release does not clear the direction. *)
Theorem C10_active_set_follows_publish (direction : string) (p : page) :
  (activeControls (handleControlPress direction p)
   = if fst (publishMessage (control_topic direction) "1" (mqtt p))
     then activeControls p ∪ {[direction]} else activeControls p)
  /\ (activeControls (handleControlRelease direction p)
      = if fst (publishMessage (control_topic direction) "0" (mqtt p))
        then activeControls p ∖ {[direction]} else activeControls p)
  /\ mqtt (handleControlPress direction p)
     = snd (publishMessage (control_topic direction) "1" (mqtt p))
  /\ mqtt (handleControlRelease direction p)
     = snd (publishMessage (control_topic direction) "0" (mqtt p))
  /\ ((client (state (mqtt p)) && isConnected (state (mqtt p)))%bool
      = false ->
      handleControlPress direction p = p
      /\ handleControlRelease direction p = p).
Proof.
  unfold handleControlPress, handleControlRelease.
  destruct (publishMessage (control_topic direction) "1" (mqtt p))
    as [ok1 h1] eqn:E1.
  destruct (publishMessage (control_topic direction) "0" (mqtt p))
    as [ok0 h0] eqn:E0.
  repeat split; try (destruct ok1; reflexivity);
    try (destruct ok0; reflexivity).
  - unfold publishMessage in E1. rewrite H in E1.
    injection E1 as <- <-. destruct p; reflexivity.
  - unfold publishMessage in E0. rewrite H in E0.
    injection E0 as <- <-. destruct p; reflexivity.
Qed.

Lemma C10_release_while_disconnected_witness :
  let p := {| mqtt := run [OnConnect; OnOffline]
                        (connectToMQTT Returned initial);
              activeControls := {["forward"]} |} in
  handleControlRelease "forward" p = p
  /\ "forward" ∈ activeControls (handleControlRelease "forward" p).
Proof.
  assert (H : forall p,
             (client (state (mqtt p)) && isConnected (state (mqtt p)))%bool
             = false -> handleControlRelease "forward" p = p).
  { intros p Hp.
    exact (proj2 (proj2 (proj2 (proj2 (proj2
             (C10_active_set_follows_publish "forward" p)))) Hp)). }
  simpl. rewrite H by reflexivity. split; [reflexivity|].
  simpl. apply elem_of_singleton. reflexivity.
Defined.

End ControlClaims.

(** ** The viewers: connecting *)

Section ConnectClaims.
Import Viewer.

(** C5.  With a blank id (empty or white space only) [connectToStream]
    returns at once: it sets the validation message and does nothing
    else.  No socket or peer connection is created, nothing is sent or
    closed, no attempt is recorded, and the refs and the connection
    flags are as before. *)
Theorem C5_blank_id_is_rejected (v : variant) (s : viewer) :
  Js.all_white (broadcastId (st s)) = true ->
  connectToStream v s
  = setError (Some "Please enter a valid Broadcast ID") s
  /\ error (st (connectToStream v s))
     = Some "Please enter a valid Broadcast ID"
  /\ sockets (connectToStream v s) = sockets s
  /\ peers (connectToStream v s) = peers s
  /\ attempts (connectToStream v s) = attempts s
  /\ rf (connectToStream v s) = rf s
  /\ isConnecting (st (connectToStream v s)) = isConnecting (st s)
  /\ isConnected (st (connectToStream v s)) = isConnected (st s)
  /\ connectionType (st (connectToStream v s)) = connectionType (st s).
Proof.
  intros H. unfold connectToStream.
  rewrite blank_all_white, H. repeat split.
Qed.

Lemma C5_blank_id_witness :
  let s := setBroadcastId "   " initial in
  connectToStream WebcamViewer s
  = setError (Some "Please enter a valid Broadcast ID") s
  /\ sockets (connectToStream WebcamViewer s) = []
  /\ peers (connectToStream WebcamViewer s) = [].
Proof.
  pose proof (C5_blank_id_is_rejected WebcamViewer
                (setBroadcastId "   " initial) eq_refl) as H.
  simpl. split; [exact (proj1 H)|].
  split; [exact (proj1 (proj2 (proj2 H)))|].
  exact (proj1 (proj2 (proj2 (proj2 H)))).
Defined.

(** What [connectToStream] does with an id that is not blank and that
    the constructor accepts, in any state: one new attempt, one new
    signaling socket, one new peer connection; the objects that existed
    are left as they were. *)
Lemma connectToStream_starts (v : variant) (s : viewer) :
  Js.blank (broadcastId (st s)) = false ->
  has_fragment (broadcastId (st s)) = false ->
  let s' := connectToStream v s in
  attempts s'
  = attempts s
    ++ [{| a_broadcastId := broadcastId (st s);
           a_isConnected := isConnected (st s);
           a_signaling := length (sockets s);
           a_peer := length (peers s);
           a_webrtc := Pending;
           a_signalingTimeout := connection_timeout v;
           a_stream := None; a_websocket := None;
           a_streamTimeout := None |}]
  /\ sockets s'
     = sockets s
       ++ [new_websocket 8080
             ("/signaling/viewer/" +:+ broadcastId (st s))
             (length (attempts s)) Signaling]
  /\ peers s' = peers s ++ [new_peer (length (attempts s))]
  /\ peerConnectionRef (rf s') = Some (length (peers s))
  /\ isConnecting (st s') = true
  /\ error (st s') = None.
Proof.
  intros H Hf. unfold connectToStream, connectWebRTC. rewrite H.
  destruct v; cbn [broadcastId st setError setIsConnecting setConnectionType
                   with_st];
    rewrite has_fragment_signaling, Hf; repeat split.
Qed.

(** With an id that is not blank and holds a [#], both constructors
    throw: [connectToStream] creates nothing, sets no ref and ends with
    the message of the inner [catch]. *)
Lemma connectToStream_throws (v : variant) (s : viewer) :
  Js.blank (broadcastId (st s)) = false ->
  has_fragment (broadcastId (st s)) = true ->
  let s' := connectToStream v s in
  sockets s' = sockets s /\ peers s' = peers s
  /\ attempts s' = attempts s /\ rf s' = rf s
  /\ error (st s') = Some (both_failed_message v)
  /\ isConnecting (st s') = false
  /\ isConnected (st s') = isConnected (st s).
Proof.
  intros H Hf. unfold connectToStream, connectWebRTC. rewrite H.
  destruct v; cbn [broadcastId st setError setIsConnecting setConnectionType
                   with_st];
    rewrite has_fragment_signaling, Hf; repeat split.
Qed.

(** The outer [catch]: a pending promise of [connectWebRTC] that is
    rejected is followed by [connectWebSocket] of the same attempt. *)
Lemma reject_webrtc_pending (v : variant) (s : viewer) (k : nat)
    (a : attempt) (reason : string) :
  attempts s !! k = Some a -> a_webrtc a = Pending ->
  has_fragment (a_broadcastId a) = false ->
  let s' := reject_webrtc v k reason s in
  sockets s'
  = sockets s
    ++ [new_websocket 8081 ("/stream/" +:+ attempt_id v a) k Frame]
  /\ websocketRef (rf s') = Some (length (sockets s))
  /\ attempts s' !! k
     = Some (a_start_stream (length (sockets s)) (connection_timeout v)
               (a_with_webrtc (Rejected reason) a))
  /\ peers s' = peers s
  /\ live_transports s' = S (live_transports s).
Proof.
  intros Hk Hp Hf. unfold reject_webrtc. rewrite Hk, Hp.
  unfold connectWebSocket. cbn [attempts with_attempts].
  rewrite list_lookup_alter_eq, Hk. cbn [fmap option_fmap option_map].
  change (match v with
          | StreamViewer => a_broadcastId (a_with_webrtc (Rejected reason) a)
          | WebcamViewer =>
              Js.trim (a_broadcastId (a_with_webrtc (Rejected reason) a))
          end) with (attempt_id v a).
  rewrite has_fragment_stream, Hf.
  repeat split.
  - cbn. rewrite list_lookup_alter_eq, list_lookup_alter_eq, Hk.
    reflexivity.
  - unfold live_transports. cbn.
    rewrite filter_app, length_app.
    rewrite (filter_cons_True _ _ []) by reflexivity.
    simpl. lia.
Qed.


(** C1, as the code has it, for an id that is not blank.  When the id
    holds a [#] the constructors of both sockets throw: both attempts
    fail at once, [error] holds the user-facing message, so the status
    reads Error, and nothing is created, closed or put in a ref.
    Otherwise [connectToStream] starts the primary attempt with the
    signaling socket at [/signaling/viewer/<id>].  When the promise of
    [connectWebRTC] is rejected while pending, [connectToStream] opens
    the frame socket at [/stream/<id>] for the id the attempt captured
    ([WebcamViewer] trims it) and keeps it in [websocketRef].  When
    the promise of [connectWebSocket] is then rejected while pending,
    [error] holds the user-facing message, so the status reads Error,
    and [isConnecting] is cleared; no transport is closed and no ref is
    cleared: the sockets, the peer connections and the refs are what
    they were before the failure, and so is the number of live
    transports. *)
Theorem C1_fallback_then_error_keeps_transports (v : variant) :
  (forall s : viewer,
      Js.blank (broadcastId (st s)) = false ->
      let s' := connectToStream v s in
      if has_fragment (broadcastId (st s)) then
        error (st s') = Some (both_failed_message v)
        /\ getStatusText s' = StatusError
        /\ isConnecting (st s') = false
        /\ sockets s' = sockets s
        /\ peers s' = peers s
        /\ attempts s' = attempts s
        /\ rf s' = rf s
        /\ live_transports s' = live_transports s
      else
        exists a,
          attempts s' = attempts s ++ [a]
          /\ a_broadcastId a = broadcastId (st s)
          /\ a_webrtc a = Pending
          /\ sockets s'
             = sockets s
               ++ [new_websocket 8080
                     ("/signaling/viewer/" +:+ broadcastId (st s))
                     (length (attempts s)) Signaling])
  /\ (forall (s : viewer) (k : nat) (a : attempt) (reason : string),
        attempts s !! k = Some a -> a_webrtc a = Pending ->
        has_fragment (a_broadcastId a) = false ->
        let s' := reject_webrtc v k reason s in
        sockets s'
        = sockets s
          ++ [new_websocket 8081 ("/stream/" +:+ attempt_id v a) k Frame]
        /\ websocketRef (rf s') = Some (length (sockets s))
        /\ attempts s' !! k
           = Some (a_start_stream (length (sockets s))
                     (connection_timeout v)
                     (a_with_webrtc (Rejected reason) a))
        /\ peers s' = peers s
        /\ live_transports s' = S (live_transports s))
  /\ (forall (s : viewer) (k : nat) (a : attempt) (reason : string),
        attempts s !! k = Some a -> a_websocket a = Some Pending ->
        let s' := reject_websocket v k reason s in
        error (st s') = Some (both_failed_message v)
        /\ getStatusText s' = StatusError
        /\ isConnecting (st s') = false
        /\ sockets s' = sockets s
        /\ peers s' = peers s
        /\ rf s' = rf s
        /\ live_transports s' = live_transports s).
Proof.
  split; [|split].
  - intros s Hb. cbv zeta.
    destruct (has_fragment (broadcastId (st s))) eqn:Hf.
    + destruct (connectToStream_throws v s Hb Hf)
        as (Hs & Hp & Ha & Hr & He & Hi & _).
      split; [exact He|].
      split; [unfold getStatusText; rewrite He; destruct v; reflexivity|].
      split; [exact Hi|]. split; [exact Hs|]. split; [exact Hp|].
      split; [exact Ha|]. split; [exact Hr|].
      unfold live_transports. rewrite Hs, Hp. reflexivity.
    + destruct (connectToStream_starts v s Hb Hf) as (Ha & Hs & _).
      eexists. split; [exact Ha|]. split; [reflexivity|].
      split; [reflexivity|exact Hs].
  - intros s k a reason Hk Hp Hf. apply reject_webrtc_pending; assumption.
  - intros s k a reason Hk Hp. unfold reject_websocket. rewrite Hk, Hp.
    repeat split.
    unfold getStatusText. cbn. destruct v; reflexivity.
Qed.

Lemma C1_fallback_then_error_witness :
  let s0 := connect WebcamViewer " A" initial in
  let s1 := reject_webrtc WebcamViewer 0 "Signaling connection timeout" s0 in
  let s2 := reject_websocket WebcamViewer 0 "WebSocket connection failed" s1
  in
  getStatusText (connect WebcamViewer "A#B" initial) = StatusError
  /\ sockets (connect WebcamViewer "A#B" initial) = []
  /\ sockets s1
     = [new_websocket 8080 "/signaling/viewer/ A" 0 Signaling;
        new_websocket 8081 "/stream/A" 0 Frame]
  /\ getStatusText s2 = StatusError
  /\ live_transports s2 = 3%nat.
Proof.
  pose proof (C1_fallback_then_error_keeps_transports WebcamViewer)
    as (H0 & H1 & H2).
  set (a0 := {| a_broadcastId := " A"; a_isConnected := false;
                a_signaling := 0; a_peer := 0; a_webrtc := Pending;
                a_signalingTimeout := Some (Armed 10000);
                a_stream := None; a_websocket := None;
                a_streamTimeout := None |}).
  set (a1 := a_start_stream 1 (Some (Armed 10000))
               (a_with_webrtc (Rejected "Signaling connection timeout")
                  a0)).
  cbv zeta.
  pose proof (H0 (setBroadcastId "A#B" initial) eq_refl)
    as (_ & Z2 & _ & Z4 & _).
  destruct (H1 (connect WebcamViewer " A" initial) 0%nat a0
              "Signaling connection timeout" eq_refl eq_refl eq_refl)
    as (A1 & _ & _ & _ & A5).
  destruct (H2 (reject_webrtc WebcamViewer 0
                  "Signaling connection timeout"
                  (connect WebcamViewer " A" initial))
              0%nat a1 "WebSocket connection failed" eq_refl eq_refl)
    as (_ & B2 & _ & _ & _ & _ & B7).
  split; [exact Z2|]. split; [exact Z4|].
  split; [exact A1|]. split; [exact B2|].
  rewrite B7, A5. reflexivity.
Defined.

(** C1 as stated fails: after both transports have failed the status
    reads Error, yet transports are still live and still held in the
    refs.  In [StreamViewer] both sockets fail to connect and are
    closed by the browser, and the peer connection stays open.  In
    [WebcamViewer] the signaling server rejects the viewer and the
    frame socket fails: the signaling socket and the peer connection
    stay open. *)
Lemma C1_live_transports_after_failure :
  (let s := run StreamViewer
              [TypeId "A"; ClickConnect;
               Browser (SocketError 0); Browser (SocketClose 0 1006);
               Browser (SocketError 1); Browser (SocketClose 1 1006)]
              initial in
   a_webrtc <$> attempts s !! 0%nat
   = Some (Rejected "Signaling connection failed")
   /\ a_websocket <$> attempts s !! 0%nat
      = Some (Some (Rejected "WebSocket connection failed"))
   /\ getStatusText s = StatusError
   /\ live_transports s = 1%nat
   /\ peerConnectionRef (rf s) = Some 0%nat
   /\ pc_closed <$> peers s !! 0%nat = Some false)
  /\ (let s := run WebcamViewer
                 [TypeId "A"; ClickConnect; Browser (SocketOpen 0);
                  Browser (SocketMessage 0 (Json (ErrorMessage None)));
                  Browser (SocketError 1)]
                 initial in
      a_webrtc <$> attempts s !! 0%nat
      = Some (Rejected "Stream connection failed")
      /\ a_websocket <$> attempts s !! 0%nat
         = Some (Some (Rejected "WebSocket connection failed"))
      /\ getStatusText s = StatusError
      /\ live_transports s = 2%nat
      /\ peerConnectionRef (rf s) = Some 0%nat
      /\ signalingWsRef (rf s) = Some 0%nat
      /\ readyState <$> sockets s !! 0%nat = Some OPEN).
Proof. vm_compute. repeat split. Qed.


(** C7, as the code has it.  [connectToStream] does not look at
    [isConnecting] or [isConnected].  With an id that is not blank and
    that the socket constructor accepts it starts a negotiation in
    every state: the new attempt's promise is pending beside those
    already running, and its signaling socket and peer connection are
    live beside those already live.  With an id that is not blank and
    holds a [#] both constructors throw, in every state: nothing is
    started, and the call ends with the message of the double failure
    and [isConnecting] cleared.  Either way every earlier socket, peer
    connection and attempt is left as it was (nothing is closed or
    settled).  Re-entry is limited by the view only: the connect button
    does nothing while [isConnecting] or [isConnected] holds. *)
Theorem C7_connect_has_no_reentry_guard (v : variant) (s : viewer) :
  Js.blank (broadcastId (st s)) = false ->
  let s' := connectToStream v s in
  (if has_fragment (broadcastId (st s)) then
     running_negotiations s' = running_negotiations s
     /\ live_transports s' = live_transports s
     /\ error (st s') = Some (both_failed_message v)
     /\ isConnecting (st s') = false
   else
     running_negotiations s' = S (running_negotiations s)
     /\ live_transports s' = (live_transports s + 2)%nat)
  /\ (forall h w, sockets s !! h = Some w -> sockets s' !! h = Some w)
  /\ (forall p pc, peers s !! p = Some pc -> peers s' !! p = Some pc)
  /\ (forall k a, attempts s !! k = Some a -> attempts s' !! k = Some a)
  /\ ((isConnecting (st s) || isConnected (st s))%bool = true ->
      clickConnect v s = s).
Proof.
  intros H s'.
  assert (Hview : (isConnecting (st s) || isConnected (st s))%bool = true ->
                  clickConnect v s = s).
  { intros Hc. unfold clickConnect.
    destruct (isConnected (st s)); [reflexivity|].
    rewrite orb_false_r in Hc. rewrite Hc. reflexivity. }
  destruct (has_fragment (broadcastId (st s))) eqn:Hf.
  - destruct (connectToStream_throws v s H Hf)
      as (Hs & Hp & Ha & _ & He & Hi & _).
    fold s' in Hs, Hp, Ha, He, Hi.
    split; [|split; [|split; [|split]]].
    + unfold running_negotiations, live_transports.
      rewrite Hs, Hp, Ha. auto.
    + intros h w Hw. rewrite Hs. exact Hw.
    + intros p pc Hpc. rewrite Hp. exact Hpc.
    + intros k a Hk. rewrite Ha. exact Hk.
    + exact Hview.
  - destruct (connectToStream_starts v s H Hf) as (Ha & Hs & Hp & _).
    fold s' in Ha, Hs, Hp.
    split; [split|split; [|split; [|split]]].
    + unfold running_negotiations. rewrite Ha, filter_app, length_app.
      rewrite (filter_cons_True _ _ []) by reflexivity. simpl. lia.
    + unfold live_transports. rewrite Hs, Hp, !filter_app, !length_app.
      rewrite (filter_cons_True _ (new_websocket _ _ _ _) [])
        by reflexivity.
      rewrite (filter_cons_True _ (new_peer _) []) by reflexivity.
      simpl. lia.
    + intros h w Hw. rewrite Hs. apply lookup_app_l_Some, Hw.
    + intros p pc Hpc. rewrite Hp. apply lookup_app_l_Some, Hpc.
    + intros k a Hk. rewrite Ha. apply lookup_app_l_Some, Hk.
    + exact Hview.
Qed.

Lemma C7_reentry_witness :
  let s := connect StreamViewer "A" initial in
  isConnecting (st s) = true
  /\ running_negotiations (connect StreamViewer "B" s) = 2%nat
  /\ live_transports (connect StreamViewer "B" s) = 4%nat
  /\ running_negotiations (connect StreamViewer "B#" s) = 1%nat
  /\ live_transports (connect StreamViewer "B#" s) = 2%nat.
Proof.
  split; [reflexivity|].
  destruct (C7_connect_has_no_reentry_guard StreamViewer
              (setBroadcastId "B" (connect StreamViewer "A" initial))
              eq_refl) as ((H1 & H2) & _).
  destruct (C7_connect_has_no_reentry_guard StreamViewer
              (setBroadcastId "B#" (connect StreamViewer "A" initial))
              eq_refl) as ((H3 & H4 & _) & _).
  split; [exact H1|]. split; [exact H2|].
  split; [exact H3 | exact H4].
Defined.

(** C7 as stated fails.  In [WebcamViewer], while connected over the
    frame socket, the Enter key in the id input calls
    [connectToStream] again: the second attempt opens its transports
    while the first attempt's frame socket is open, so two attempts
    hold live transports.  While connecting, after the peer connection
    reported [failed] (which sets [error] and leaves the promise
    pending), "Try Again" starts a second negotiation beside the
    first. *)
Lemma C7_two_attempts_at_once :
  (let s0 := run WebcamViewer
               [TypeId "A"; ClickConnect; Browser (SocketError 0);
                Browser (SocketOpen 1)] initial in
   let s := act WebcamViewer (PressKey "Enter") s0 in
   getStatusText s0 = StatusConnected
   /\ ws_attempt <$> sockets s !! 1%nat = Some 0%nat
   /\ readyState <$> sockets s !! 1%nat = Some OPEN
   /\ ws_attempt <$> sockets s !! 2%nat = Some 1%nat
   /\ readyState <$> sockets s !! 2%nat = Some CONNECTING
   /\ live_owners s = [0; 1; 0; 1]%nat)
  /\ (let s0 := run WebcamViewer
                  [TypeId "A"; ClickConnect;
                   Browser (PeerConnectionState 0 CsFailed)] initial in
      let s := act WebcamViewer ClickTryAgain s0 in
      isConnecting (st s0) = true
      /\ running_negotiations s0 = 1%nat
      /\ running_negotiations s = 2%nat
      /\ live_owners s = [0; 1; 0; 1]%nat).
Proof. vm_compute. repeat split. Qed.

End ConnectClaims.

(** ** The viewers: events of an earlier attempt *)

Section AttemptClaims.
Import Viewer.

Lemma resolve_webrtc_keeps (v : variant) (k : nat) (s : viewer) :
  isConnected (st (resolve_webrtc v k s)) = isConnected (st s)
  /\ isConnecting (st (resolve_webrtc v k s)) = isConnecting (st s)
  /\ rf (resolve_webrtc v k s) = rf s.
Proof.
  unfold resolve_webrtc.
  destruct (attempts s !! k) as [a|]; [|auto].
  destruct (a_webrtc a); destruct v; auto.
Qed.

(** C2, as the code has it.  No token tells the attempts apart: the
    handlers are tied to the socket or peer connection they were
    installed on and run whenever the browser delivers its event,
    whichever attempt created it.  On any peer connection that is not
    closed, a track event with a stream shows that stream and sets
    the flags to connected.  On any open signaling socket, a
    [stream-info] message sets the viewer count and the quality, and
    an offer is applied to that socket's peer connection and
    answered.  The one thing an attempt keeps to itself is its
    promise, which ignores [resolve] and [reject] once settled. *)
Theorem C2_handlers_run_for_every_attempt (v : variant) (s : viewer) :
  (forall p pc vid stream,
      peers s !! p = Some pc -> pc_closed pc = false ->
      videoRef (rf s) = Some vid ->
      let s' := deliver v (PeerTrack p (Some stream)) s in
      isConnected (st s') = true
      /\ isConnecting (st s') = false
      /\ videoRef (rf s')
         = Some {| srcObject := Some stream; src := src vid |})
  /\ (forall h w a n q,
        sockets s !! h = Some w -> readyState w = OPEN ->
        ws_role w = Signaling -> attempts s !! ws_attempt w = Some a ->
        let s' := deliver v (SocketMessage h (Json (StreamInfo n q))) s in
        viewerCount (st s') = Js.num_or_zero n
        /\ streamQuality (st s') = Js.or_default q "HD")
  /\ (forall h w a pc offer,
        sockets s !! h = Some w -> readyState w = OPEN ->
        ws_role w = Signaling -> attempts s !! ws_attempt w = Some a ->
        a_signaling a = h ->
        peers s !! a_peer a = Some pc -> pc_closed pc = false ->
        let s' := deliver v (SocketMessage h (Json (Offer offer))) s in
        remoteDescription <$> peers s' !! a_peer a = Some (Some offer)
        /\ sent <$> sockets s' !! h
           = Some (sent w ++ [AnswerOut (answer_of offer) (attempt_id v a)]))
  /\ (forall k a reason,
        attempts s !! k = Some a -> a_webrtc a <> Pending ->
        reject_webrtc v k reason s = s /\ resolve_webrtc v k s = s).
Proof.
  split; [|split; [|split]].
  - intros p pc vid stream Hp Hc Hv s'. subst s'.
    unfold deliver. rewrite Hp, Hc. unfold peer_ontrack. rewrite Hv.
    match goal with
    | |- context [resolve_webrtc v ?k ?x] =>
        destruct (resolve_webrtc_keeps v k x) as (E1 & E2 & E3);
        rewrite E1, E2, E3
    end.
    destruct v; repeat split.
  - intros h w a n q Hw Ho Hr Ha s'. subst s'.
    unfold deliver. rewrite Hw, Ho, Ha, Hr. repeat split.
  - intros h w a pc offer Hw Ho Hr Ha Hh Hp Hc s'. subst s'.
    unfold deliver. rewrite Hw, Ho, Ha, Hr.
    unfold signaling_onmessage. rewrite Hp.
    unfold pc_accept_offer. cbn [pc_log pc_closed]. rewrite Hc.
    rewrite Hh.
    cbn [ws_send with_sockets with_peers sockets peers]. split.
    + rewrite list_lookup_insert_eq by (eapply lookup_lt_Some; eauto).
      reflexivity.
    + rewrite list_lookup_alter_eq, Hw. cbn [fmap option_fmap option_map].
      unfold ws_send_obj. rewrite Ho. reflexivity.
  - intros k a reason Ha Hp. unfold reject_webrtc, resolve_webrtc.
    rewrite Ha. destruct (a_webrtc a); [contradiction|auto|auto].
Qed.

Lemma C2_late_event_witness :
  let s := connect WebcamViewer "B" (connect WebcamViewer "A" initial) in
  let s' := deliver WebcamViewer (PeerTrack 0 (Some 7%nat)) s in
  pc_attempt <$> peers s !! 0%nat = Some 0%nat
  /\ length (attempts s) = 2%nat
  /\ isConnected (st s') = true
  /\ isConnecting (st s') = false.
Proof.
  split; [reflexivity|]. split; [reflexivity|].
  destruct (proj1 (C2_handlers_run_for_every_attempt WebcamViewer
                     (connect WebcamViewer "B"
                        (connect WebcamViewer "A" initial)))
              0%nat (new_peer 0) {| srcObject := None; src := "" |} 7%nat
              eq_refl eq_refl eq_refl) as (H1 & H2 & _).
  split; [exact H1 | exact H2].
Defined.

(** C2 as stated fails.  After [connect("A")] then [connect("B")] the
    events of A's attempt still change the state: a track event on A's
    peer connection makes the viewer connected and shows A's stream; a
    delayed offer on A's signaling socket is applied and answered on
    A's objects; a [stream-ended] message on A's socket runs
    [disconnect], which closes B's peer connection. *)
Lemma C2_superseded_attempt_mutates_state :
  (let s := connect WebcamViewer "B" (connect WebcamViewer "A" initial) in
   a_broadcastId <$> attempts s !! 0%nat = Some "A"
   /\ a_broadcastId <$> attempts s !! 1%nat = Some "B"
   /\ (let s' := deliver WebcamViewer (PeerTrack 0 (Some 7%nat)) s in
       pc_attempt <$> peers s !! 0%nat = Some 0%nat
       /\ isConnected (st s) = false
       /\ isConnected (st s') = true
       /\ videoRef (rf s') = Some {| srcObject := Some 7%nat; src := "" |}
       /\ a_webrtc <$> attempts s' !! 1%nat = Some Pending)
   /\ (let s' := run WebcamViewer
                   [Browser (SocketOpen 0);
                    Browser (SocketMessage 0 (Json (Offer "late")))] s in
       ws_attempt <$> sockets s !! 0%nat = Some 0%nat
       /\ remoteDescription <$> peers s' !! 0%nat = Some (Some "late")
       /\ sent <$> sockets s' !! 0%nat
          = Some [JoinStream "A"; AnswerOut "answer:late" "A"])
   /\ (let s' := run WebcamViewer
                   [Browser (SocketOpen 0);
                    Browser (SocketMessage 0 (Json StreamEnded))] s in
       pc_attempt <$> peers s !! 1%nat = Some 1%nat
       /\ pc_closed <$> peers s !! 1%nat = Some false
       /\ pc_closed <$> peers s' !! 1%nat = Some true
       /\ isConnecting (st s) = true
       /\ isConnecting (st s') = false))
  /\ (let s := connect StreamViewer "B" (connect StreamViewer "A" initial) in
      let s' := deliver StreamViewer (PeerTrack 0 (Some 7%nat)) s in
      a_broadcastId <$> attempts s !! 0%nat = Some "A"
      /\ pc_attempt <$> peers s !! 0%nat = Some 0%nat
      /\ isConnected (st s) = false
      /\ isConnected (st s') = true
      /\ videoRef (rf s') = Some {| srcObject := Some 7%nat; src := "" |}
      /\ a_webrtc <$> attempts s' !! 1%nat = Some Pending).
Proof. vm_compute. repeat split. Qed.

End AttemptClaims.

(** ** The viewers: ICE candidates *)

Section CandidateClaims.
Import Viewer.

Lemma ws_send_ready (s : viewer) (h h' : nat) (a : attempt)
    (m : out_message) :
  signaling_ready s h a -> signaling_ready (ws_send h' m s) h a.
Proof.
  intros (w & Hw & Ho & Hr & Ha).
  unfold ws_send, with_sockets, signaling_ready. cbn [sockets attempts].
  rewrite list_lookup_alter. destruct (decide (h' = h)) as [->|Hne].
  - rewrite Hw. cbn [fmap option_fmap option_map].
    exists (ws_send_obj m w). unfold ws_send_obj. rewrite Ho. cbn. auto.
  - exists w. auto.
Qed.

Lemma candidates_after_offer_cons (hr : bool) (m : message)
    (ms : list message) :
  candidates_after_offer hr (m :: ms)
  = candidates_after_offer hr [m]
    ++ candidates_after_offer (hr || is_offer m) ms.
Proof.
  destruct m as [o|[c|]| | | | |]; cbn [candidates_after_offer is_offer];
    rewrite ?orb_false_r, ?orb_true_r, ?app_nil_r; reflexivity.
Qed.

(** One message of the exchange, received on an open signaling socket
    whose peer connection is open. *)
Lemma exchange_step (v : variant) (s : viewer) (h : nat) (a : attempt)
    (pc : peer) (m : message) :
  signaling_ready s h a ->
  peers s !! a_peer a = Some pc -> pc_closed pc = false ->
  exchange_message m = true ->
  let s' := deliver v (SocketMessage h (Json m)) s in
  signaling_ready s' h a
  /\ exists pc',
      peers s' !! a_peer a = Some pc' /\ pc_closed pc' = false
      /\ has_remote pc' = (has_remote pc || is_offer m)%bool
      /\ remoteCandidates pc'
         = remoteCandidates pc ++ candidates_after_offer (has_remote pc) [m]
      /\ pc_calls pc' = pc_calls pc ++ calls_on_receipt v m.
Proof.
  intros Hready Hp Hc Hm s'. subst s'.
  pose proof Hready as (w & Hw & Ho & Hr & Ha).
  unfold deliver. rewrite Hw, Ho, Ha, Hr.
  destruct m as [o|c|n q| | | |]; try discriminate Hm;
    unfold signaling_onmessage.
  - rewrite Hp. unfold pc_accept_offer. cbn [pc_log pc_closed].
    rewrite Hc. split.
    + apply ws_send_ready. exists w. auto.
    + eexists. split.
      * cbn [ws_send with_sockets with_peers peers].
        apply list_lookup_insert_eq. eapply lookup_lt_Some; eauto.
      * cbn. rewrite orb_true_r, app_nil_r, <- !app_assoc. auto.
  - assert (Hgen :
      signaling_ready
        (with_peers (alter (pc_addIceCandidate c) (a_peer a)) s) h a
      /\ exists pc',
          peers (with_peers (alter (pc_addIceCandidate c) (a_peer a)) s)
            !! a_peer a = Some pc'
          /\ pc_closed pc' = false
          /\ has_remote pc' = (has_remote pc || false)%bool
          /\ remoteCandidates pc'
             = remoteCandidates pc
               ++ candidates_after_offer (has_remote pc) [IceCandidate c]
          /\ pc_calls pc' = pc_calls pc ++ [AddIceCandidate c]).
    { split; [exists w; auto|].
      exists (pc_addIceCandidate c pc). split.
      - cbn [with_peers peers]. rewrite list_lookup_alter_eq, Hp.
        reflexivity.
      - unfold pc_addIceCandidate, has_remote. cbn [pc_log pc_closed
          remoteDescription]. rewrite Hc.
        destruct (remoteDescription pc) eqn:E, c; cbn;
          rewrite ?E, ?app_nil_r; auto. }
    destruct v; [exact Hgen|].
    destruct c as [c|]; [exact Hgen|].
    split; [exact Hready|].
    exists pc. cbn. rewrite orb_false_r, !app_nil_r. auto.
  - split; [exists w; auto|].
    exists pc. cbn. rewrite orb_false_r, !app_nil_r. auto.
  - split; [exact Hready|].
    exists pc. cbn. rewrite orb_false_r, !app_nil_r. auto.
Qed.

(** C3, as the code has it.  Candidates are not buffered.  For the
    messages of the offer and candidate exchange received in order on
    an open signaling socket whose peer connection is open, each
    [ice-candidate] message is passed to [addIceCandidate] when it is
    received and never again: the calls made on the peer connection
    are those of the messages, in receipt order.  The candidates the
    connection takes are those received once the remote description is
    set, in receipt order; a candidate received before that is
    refused by the connection and is not replayed. *)
Theorem C3_candidates_are_not_buffered (v : variant) (ms : list message) :
  forall (s : viewer) (h : nat) (a : attempt) (pc : peer),
    signaling_ready s h a ->
    peers s !! a_peer a = Some pc -> pc_closed pc = false ->
    forallb exchange_message ms = true ->
    exists pc',
      peers (deliver_messages v h ms s) !! a_peer a = Some pc'
      /\ remoteCandidates pc'
         = remoteCandidates pc ++ candidates_after_offer (has_remote pc) ms
      /\ pc_calls pc' = pc_calls pc ++ calls_of v ms.
Proof.
  induction ms as [|m ms IH]; intros s h a pc Hready Hp Hc Hms.
  - exists pc. cbn. rewrite !app_nil_r. auto.
  - cbn [forallb] in Hms. apply andb_true_iff in Hms as [Hm Hms].
    destruct (exchange_step v s h a pc m Hready Hp Hc Hm)
      as (Hready' & pc1 & Hp1 & Hc1 & Hr1 & Hcand1 & Hcalls1).
    destruct (IH _ h a pc1 Hready' Hp1 Hc1 Hms)
      as (pc2 & Hp2 & Hcand2 & Hcalls2).
    exists pc2. split; [exact Hp2|]. split.
    + rewrite (candidates_after_offer_cons _ m ms).
      rewrite Hcand2, Hcand1, Hr1, app_assoc. reflexivity.
    + rewrite Hcalls2, Hcalls1. cbn [calls_of].
      rewrite app_assoc. reflexivity.
Qed.


Lemma C3_candidates_witness :
  let s := deliver StreamViewer (SocketOpen 0)
             (connect StreamViewer "A" initial) in
  exists pc',
    peers (deliver_messages StreamViewer 0
             [IceCandidate (Some "c1"); Offer "o";
              IceCandidate (Some "c2")] s) !! 0%nat = Some pc'
    /\ remoteCandidates pc' = ["c2"]
    /\ pc_calls pc'
       = [AddIceCandidate (Some "c1"); SetRemoteDescription "o";
          CreateAnswer; SetLocalDescription "answer:o";
          AddIceCandidate (Some "c2")].
Proof.
  cbv zeta.
  refine (C3_candidates_are_not_buffered StreamViewer
            [IceCandidate (Some "c1"); Offer "o"; IceCandidate (Some "c2")]
            (deliver StreamViewer (SocketOpen 0)
               (connect StreamViewer "A" initial))
            0%nat
            {| a_broadcastId := "A"; a_isConnected := false;
               a_signaling := 0; a_peer := 0; a_webrtc := Pending;
               a_signalingTimeout := None; a_stream := None;
               a_websocket := None; a_streamTimeout := None |}
            (new_peer 0) _ eq_refl eq_refl eq_refl).
  exists {| ws_port := 8080; ws_path := "/signaling/viewer/A";
            readyState := OPEN; closeFired := false;
            sent := [JoinStream "A"]; ws_attempt := 0;
            ws_role := Signaling |}.
  repeat split.
Defined.

(** C3 as stated fails.  A candidate that arrives before the offer is
    handed to the peer connection at once, while it has no remote
    description; the connection refuses it, and the handler of the
    offer replays nothing: after the offer the remote description is
    set, the accepted candidates are none, and the only call of
    [addIceCandidate] precedes [setRemoteDescription]. *)
Lemma C3_early_candidate_is_dropped :
  (let s := run StreamViewer
              [TypeId "A"; ClickConnect; Browser (SocketOpen 0);
               Browser (SocketMessage 0 (Json (IceCandidate (Some "c1"))));
               Browser (SocketMessage 0 (Json (Offer "o")))]
              initial in
   remoteDescription <$> peers s !! 0%nat = Some (Some "o")
   /\ remoteCandidates <$> peers s !! 0%nat = Some []
   /\ pc_calls <$> peers s !! 0%nat
      = Some [AddIceCandidate (Some "c1"); SetRemoteDescription "o";
              CreateAnswer; SetLocalDescription "answer:o"])
  /\ (let s := run WebcamViewer
                 [TypeId "A"; ClickConnect; Browser (SocketOpen 0);
                  Browser (SocketMessage 0
                             (Json (IceCandidate (Some "c1"))));
                  Browser (SocketMessage 0 (Json (Offer "o")))]
                 initial in
      remoteDescription <$> peers s !! 0%nat = Some (Some "o")
      /\ remoteCandidates <$> peers s !! 0%nat = Some []
      /\ pc_calls <$> peers s !! 0%nat
         = Some [AddIceCandidate (Some "c1"); SetRemoteDescription "o";
                 CreateAnswer; SetLocalDescription "answer:o"]).
Proof. vm_compute. repeat split. Qed.

End CandidateClaims.

(** ** The viewers: disconnecting *)

Section DisconnectClaims.
Import Viewer.

Lemma close_not_live (l : list websocket) (h : nat) (w : websocket) :
  alter ws_close_obj h l !! h = Some w -> ws_live w = false.
Proof.
  rewrite list_lookup_alter_eq.
  destruct (l !! h) as [w0|]; [|discriminate].
  cbn. intros [= <-]. unfold ws_close_obj, ws_live.
  destruct (readyState w0) eqn:E; cbn; rewrite ?E; reflexivity.
Qed.

Lemma close_keeps_not_live (l : list websocket) (h h' : nat)
    (w : websocket) :
  (forall w0, l !! h = Some w0 -> ws_live w0 = false) ->
  alter ws_close_obj h' l !! h = Some w -> ws_live w = false.
Proof.
  intros H. rewrite list_lookup_alter.
  destruct (decide (h' = h)) as [->|Hne]; [|apply H].
  destruct (l !! h) as [w0|]; [|discriminate].
  cbn. intros [= <-]. specialize (H w0 eq_refl).
  unfold ws_close_obj, ws_live in *.
  destruct (readyState w0) eqn:E; cbn; rewrite ?E; auto.
Qed.

(** The sockets and peer connections after [disconnect]. *)
Lemma disconnect_sockets (v : variant) (s : viewer) :
  sockets (disconnect v s)
  = let l :=
      match v, signalingWsRef (rf s) with
      | WebcamViewer, Some h => alter ws_close_obj h (sockets s)
      | _, _ => sockets s
      end in
    match websocketRef (rf s) with
    | Some h => alter ws_close_obj h l
    | None => l
    end.
Proof.
  destruct s as [u [vr pr wr sr] so pe at_].
  destruct v, pr, wr, sr, vr; reflexivity.
Qed.

Lemma disconnect_peers (v : variant) (s : viewer) :
  peers (disconnect v s)
  = match peerConnectionRef (rf s) with
    | Some p => alter pc_close_obj p (peers s)
    | None => peers s
    end.
Proof.
  destruct s as [u [vr pr wr sr] so pe at_].
  destruct v, pr, wr, sr, vr; reflexivity.
Qed.

(** C4, as the code has it.  [disconnect] closes the peer connection
    and the sockets held in the refs and clears those refs, clears the
    video element, and resets [isConnected], [isConnecting], [error]
    and [viewerCount] (and [connectionType] in [WebcamViewer]), so the
    status reads Disconnected.  It is idempotent in every state: a
    second call returns the same state, closing nothing more.  With
    empty refs it touches no socket and no peer connection. *)
Theorem C4_disconnect_idempotent (v : variant) (s : viewer) :
  let s1 := disconnect v s in
  disconnect v s1 = s1
  /\ getStatusText s1 = StatusDisconnected
  /\ isConnected (st s1) = false
  /\ isConnecting (st s1) = false
  /\ error (st s1) = None
  /\ viewerCount (st s1) = 0
  /\ (v = WebcamViewer -> connectionType (st s1) = None)
  /\ peerConnectionRef (rf s1) = None
  /\ websocketRef (rf s1) = None
  /\ (v = WebcamViewer -> signalingWsRef (rf s1) = None)
  /\ videoRef (rf s1)
     = (fun _ => {| srcObject := None; src := "" |}) <$> videoRef (rf s)
  /\ (forall p pc,
        peerConnectionRef (rf s) = Some p -> peers s1 !! p = Some pc ->
        pc_closed pc = true)
  /\ (forall h w,
        websocketRef (rf s) = Some h -> sockets s1 !! h = Some w ->
        ws_live w = false)
  /\ (v = WebcamViewer ->
      forall h w,
        signalingWsRef (rf s) = Some h -> sockets s1 !! h = Some w ->
        ws_live w = false)
  /\ (peerConnectionRef (rf s) = None -> websocketRef (rf s) = None ->
      signalingWsRef (rf s) = None ->
      sockets s1 = sockets s /\ peers s1 = peers s).
Proof.
  cbv zeta.
  assert (Hcases :
    forall P : variant -> viewer -> Prop,
      (forall v u vr pr wr sr so pe at_,
          P v {| st := u;
                 rf := {| videoRef := vr; peerConnectionRef := pr;
                          websocketRef := wr; signalingWsRef := sr |};
                 sockets := so; peers := pe; attempts := at_ |}) ->
      P v s).
  { intros P H. destruct s as [u [vr pr wr sr] so pe at_]. apply H. }
  split; [apply (Hcases (fun v s => disconnect v (disconnect v s)
                                    = disconnect v s));
          intros [] u [] [] [] [] so pe at_; reflexivity|].
  split; [apply (Hcases (fun v s => getStatusText (disconnect v s) = _));
          intros [] u [] [] [] [] so pe at_; reflexivity|].
  split; [apply (Hcases (fun v s => isConnected (st (disconnect v s)) = _));
          intros [] u [] [] [] [] so pe at_; reflexivity|].
  split; [apply (Hcases (fun v s =>
                           isConnecting (st (disconnect v s)) = _));
          intros [] u [] [] [] [] so pe at_; reflexivity|].
  split; [apply (Hcases (fun v s => error (st (disconnect v s)) = _));
          intros [] u [] [] [] [] so pe at_; reflexivity|].
  split; [apply (Hcases (fun v s => viewerCount (st (disconnect v s)) = _));
          intros [] u [] [] [] [] so pe at_; reflexivity|].
  split; [apply (Hcases (fun v s =>
                           v = WebcamViewer ->
                           connectionType (st (disconnect v s)) = _));
          intros [] u [] [] [] [] so pe at_ [=]; reflexivity|].
  split; [apply (Hcases (fun v s =>
                           peerConnectionRef (rf (disconnect v s)) = _));
          intros [] u [] [] [] [] so pe at_; reflexivity|].
  split; [apply (Hcases (fun v s =>
                           websocketRef (rf (disconnect v s)) = _));
          intros [] u [] [] [] [] so pe at_; reflexivity|].
  split; [apply (Hcases (fun v s =>
                           v = WebcamViewer ->
                           signalingWsRef (rf (disconnect v s)) = _));
          intros [] u [] [] [] [] so pe at_ [=]; reflexivity|].
  split; [apply (Hcases (fun v s =>
                           videoRef (rf (disconnect v s))
                           = _ <$> videoRef (rf s)));
          intros [] u [] [] [] [] so pe at_; reflexivity|].
  split; [|split; [|split]].
  - intros p pc Hp. rewrite disconnect_peers, Hp, list_lookup_alter_eq.
    destruct (peers s !! p); [|discriminate].
    cbn. intros [= <-]. reflexivity.
  - intros h w Hh. rewrite disconnect_sockets, Hh. cbv zeta.
    apply close_not_live.
  - intros -> h w Hh. rewrite disconnect_sockets, Hh. cbv zeta.
    destruct (websocketRef _) as [h'|]; [|apply close_not_live].
    apply close_keeps_not_live. intros w0. apply close_not_live.
  - intros Hp Hw Hs. rewrite disconnect_sockets, disconnect_peers.
    rewrite Hp, Hw, Hs. destruct v; split; reflexivity.
Qed.

Lemma C4_disconnect_witness :
  let s := run WebcamViewer
             [TypeId "A"; ClickConnect; Browser (SocketError 0);
              Browser (SocketOpen 1)] initial in
  getStatusText s = StatusConnected
  /\ disconnect WebcamViewer (disconnect WebcamViewer s)
     = disconnect WebcamViewer s
  /\ getStatusText (disconnect WebcamViewer s) = StatusDisconnected
  /\ signalingWsRef (rf (disconnect WebcamViewer s)) = None
  /\ (forall w,
        sockets (disconnect WebcamViewer s) !! 1%nat = Some w ->
        ws_live w = false).
Proof.
  cbv zeta. split; [reflexivity|].
  destruct (C4_disconnect_idempotent WebcamViewer
              (run WebcamViewer
                 [TypeId "A"; ClickConnect; Browser (SocketError 0);
                  Browser (SocketOpen 1)] initial))
    as (H1 & H2 & _ & _ & _ & _ & _ & _ & _ & H10 & _ & _ & H13 & _).
  split; [exact H1|]. split; [exact H2|].
  split; [exact (H10 eq_refl)|].
  intros w. exact (H13 1%nat w eq_refl).
Defined.

(** C4 as stated fails in one respect: [disconnect] closes the
    transports held in the refs, not whichever transports exist.  In
    [WebcamViewer], after an attempt fails on both transports, "Try
    Again" starts the next attempt and overwrites the refs; the
    [disconnect] that follows closes the second attempt's transports,
    and the first attempt's signaling socket and peer connection remain
    open. *)
Lemma C4_disconnect_leaves_earlier_transports :
  let s0 := run WebcamViewer
              [TypeId "A"; ClickConnect; Browser (SocketOpen 0);
               Browser (SocketMessage 0 (Json (ErrorMessage None)));
               Browser (SocketError 1); ClickTryAgain] initial in
  let s := disconnect WebcamViewer s0 in
  getStatusText s = StatusDisconnected
  /\ live_transports s = 2%nat
  /\ live_owners s = [0; 0]%nat
  /\ readyState <$> sockets s !! 0%nat = Some OPEN
  /\ pc_closed <$> peers s !! 0%nat = Some false
  /\ pc_closed <$> peers s !! 1%nat = Some true.
Proof. vm_compute. repeat split. Qed.

End DisconnectClaims.

(** ** The viewers: timeouts and closures *)

Section TimeoutClaims.
Import Viewer.

(** In [WebcamViewer] each open attempt is bounded.  [connectWebRTC]
    and [connectWebSocket] arm a timer of 10000 ms; while the timer is
    armed and the promise pending, its expiry rejects the promise with
    a reason of its own, different from the reasons of the socket's
    error event and of a missing broadcast. *)
Lemma WebcamViewer_open_attempts_time_out (s : viewer) :
  (Js.blank (broadcastId (st s)) = false ->
   has_fragment (broadcastId (st s)) = false ->
   a_signalingTimeout <$> last (attempts (connectToStream WebcamViewer s))
   = Some (Some (Armed 10000)))
  /\ (forall k a reason,
        attempts s !! k = Some a -> a_webrtc a = Pending ->
        has_fragment (a_broadcastId a) = false ->
        a_streamTimeout
          <$> attempts (reject_webrtc WebcamViewer k reason s) !! k
        = Some (Some (Armed 10000)))
  /\ (forall k a d,
        attempts s !! k = Some a -> a_webrtc a = Pending ->
        a_signalingTimeout a = Some (Armed d) ->
        a_webrtc
          <$> attempts
                (deliver WebcamViewer (TimerExpired k SignalingTimer) s)
              !! k
        = Some (Rejected "Signaling connection timeout"))
  /\ (forall k a d,
        attempts s !! k = Some a -> a_websocket a = Some Pending ->
        a_streamTimeout a = Some (Armed d) ->
        let s' := deliver WebcamViewer (TimerExpired k StreamTimer) s in
        a_websocket <$> attempts s' !! k
        = Some (Some (Rejected "WebSocket connection timeout"))
        /\ error (st s') = Some (both_failed_message WebcamViewer)
        /\ isConnecting (st s') = false)
  /\ "Signaling connection timeout" <> "Signaling server connection failed"
  /\ "Signaling connection timeout"
     <> "Broadcast ID not found. Please check the ID and try again."
  /\ "WebSocket connection timeout" <> "WebSocket connection failed".
Proof.
  split; [|split; [|split; [|split]]].
  - intros H Hf.
    destruct (connectToStream_starts WebcamViewer s H Hf) as (Ha & _).
    rewrite Ha, last_snoc. reflexivity.
  - intros k a reason Hk Hp Hf.
    destruct (reject_webrtc_pending WebcamViewer s k a reason Hk Hp Hf)
      as (_ & _ & H & _).
    rewrite H. reflexivity.
  - intros k a d Hk Hp Ht. unfold deliver. rewrite Hk, Ht.
    unfold signaling_ontimeout, reject_webrtc.
    cbn [attempts with_attempts].
    rewrite list_lookup_alter_eq, Hk.
    cbn [fmap option_fmap option_map a_with_signalingTimeout a_webrtc].
    rewrite Hp. unfold connectWebSocket. cbn [attempts with_attempts].
    rewrite !list_lookup_alter_eq, Hk.
    cbn [fmap option_fmap option_map].
    match goal with |- context [if ?b then _ else _] => destruct b end.
    + unfold reject_websocket. cbn [attempts with_attempts].
      rewrite !list_lookup_alter_eq, Hk. cbn.
      rewrite !list_lookup_alter_eq, Hk. reflexivity.
    + cbn. rewrite !list_lookup_alter_eq, Hk. reflexivity.
  - intros k a d Hk Hp Ht. unfold deliver. rewrite Hk, Ht.
    unfold stream_ontimeout, reject_websocket.
    cbn [attempts with_attempts].
    rewrite list_lookup_alter_eq, Hk.
    cbn [fmap option_fmap option_map a_with_streamTimeout a_websocket].
    rewrite Hp. cbn. rewrite !list_lookup_alter_eq, Hk. auto.
  - repeat split; discriminate.
Qed.

(** C8 at [StreamViewer].  Neither [connectWebRTC] nor
    [connectWebSocket] sets a timer there.  After [connect("A")] the
    attempt is pending with no timer, so no expiry can end it: while no
    open or error event arrives the viewer stays connecting.  The same
    holds for the frame socket opened after the signaling socket
    failed. *)
Theorem C8_StreamViewer_open_attempt_has_no_timeout :
  let s := connect StreamViewer "A" initial in
  let s2 := deliver StreamViewer (SocketError 0) s in
  attempts s
  = [{| a_broadcastId := "A"; a_isConnected := false; a_signaling := 0;
        a_peer := 0; a_webrtc := Pending; a_signalingTimeout := None;
        a_stream := None; a_websocket := None;
        a_streamTimeout := None |}]
  /\ readyState <$> sockets s !! 0%nat = Some CONNECTING
  /\ isConnecting (st s) = true
  /\ running_negotiations s = 1%nat
  /\ (forall k t, deliver StreamViewer (TimerExpired k t) s = s)
  /\ attempts s2
     = [{| a_broadcastId := "A"; a_isConnected := false; a_signaling := 0;
           a_peer := 0; a_webrtc := Rejected "Signaling connection failed";
           a_signalingTimeout := None; a_stream := Some 1%nat;
           a_websocket := Some Pending; a_streamTimeout := None |}]
  /\ readyState <$> sockets s2 !! 1%nat = Some CONNECTING
  /\ isConnecting (st s2) = true
  /\ running_negotiations s2 = 1%nat
  /\ (forall k t, deliver StreamViewer (TimerExpired k t) s2 = s2).
Proof.
  cbv zeta.
  split; [vm_compute; reflexivity|].
  split; [vm_compute; reflexivity|].
  split; [vm_compute; reflexivity|].
  split; [vm_compute; reflexivity|].
  split; [intros [|k] []; vm_compute; reflexivity|].
  split; [vm_compute; reflexivity|].
  split; [vm_compute; reflexivity|].
  split; [vm_compute; reflexivity|].
  split; [vm_compute; reflexivity|].
  intros [|k] []; vm_compute; reflexivity.
Qed.

(** C9, as the code has it, at [WebcamViewer].  When the frame socket
    closes, the handler clears [isConnected] and raises "Connection
    lost" exactly when the closure code is not 1000, whether or not
    the socket was ever open; with code 1000 it leaves [error] as it
    was. *)
Theorem C9_WebcamViewer_close_code (s : viewer) (h : nat)
    (w : websocket) (a : attempt) (code : Z) :
  sockets s !! h = Some w -> ws_role w = Frame ->
  closeFired w = false -> attempts s !! ws_attempt w = Some a ->
  let s' := deliver WebcamViewer (SocketClose h code) s in
  isConnected (st s') = false
  /\ (code <> 1000 -> error (st s') = Some "Connection lost")
  /\ (code = 1000 -> error (st s') = error (st s)).
Proof.
  intros Hw Hr Hf Ha s'. subst s'.
  unfold deliver. rewrite Hw, Hf, Ha, Hr. unfold stream_onclose.
  destruct (code =? 1000) eqn:E; cbn.
  - apply Z.eqb_eq in E. split; [reflexivity|].
    split; [intros Hne; contradiction|reflexivity].
  - apply Z.eqb_neq in E. split; [reflexivity|].
    split; [reflexivity|intros He; contradiction].
Qed.

Lemma C9_close_code_witness :
  let s := run WebcamViewer
             [TypeId "A"; ClickConnect; Browser (SocketError 0);
              Browser (SocketOpen 1)] initial in
  (let s' := deliver WebcamViewer (SocketClose 1 1006) s in
   isConnected (st s') = false
   /\ error (st s') = Some "Connection lost")
  /\ (let s' := deliver WebcamViewer (SocketClose 1 1000)
                  (disconnect WebcamViewer s) in
      isConnected (st s') = false /\ error (st s') = None).
Proof.
  cbv zeta. split.
  - destruct (C9_WebcamViewer_close_code
                (run WebcamViewer
                   [TypeId "A"; ClickConnect; Browser (SocketError 0);
                    Browser (SocketOpen 1)] initial)
                1%nat
                {| ws_port := 8081; ws_path := "/stream/A";
                   readyState := OPEN; closeFired := false; sent := [];
                   ws_attempt := 0; ws_role := Frame |}
                (a_with_websocket (Some Fulfilled)
                   (a_with_streamTimeout (Some Cleared)
                      (a_start_stream 1 (Some (Armed 10000))
                         (a_with_webrtc
                            (Rejected "Signaling server connection failed")
                            (a_with_signalingTimeout (Some Cleared)
                               {| a_broadcastId := "A";
                                  a_isConnected := false;
                                  a_signaling := 0; a_peer := 0;
                                  a_webrtc := Pending;
                                  a_signalingTimeout :=
                                    Some (Armed 10000);
                                  a_stream := None; a_websocket := None;
                                  a_streamTimeout := None |})))))
                1006 eq_refl eq_refl eq_refl eq_refl) as (H1 & H2 & _).
    split; [exact H1|]. apply H2. lia.
  - split; reflexivity.
Defined.

(** C9 as stated fails.  In [WebcamViewer] a frame socket that never
    opened and closes with code 1006 raises "Connection lost", though
    the viewer was never connected; the message replaces the one set
    when both transports failed. *)
Lemma C9_connection_lost_without_connection :
  let s0 := run WebcamViewer
              [TypeId "A"; ClickConnect; Browser (SocketError 0);
               Browser (SocketError 1)] initial in
  let s := deliver WebcamViewer (SocketClose 1 1006) s0 in
  a_websocket <$> attempts s0 !! 0%nat
  = Some (Some (Rejected "WebSocket connection failed"))
  /\ isConnected (st s0) = false
  /\ error (st s0) = Some (both_failed_message WebcamViewer)
  /\ error (st s) = Some "Connection lost".
Proof. vm_compute. repeat split. Qed.

End TimeoutClaims.

(** ** The broker client over whole traces *)

Section BrokerTraces.
Import MQTT.

Lemma run_cons (e : event) (tr : list event) (h : hook) :
  run (e :: tr) h = run tr (handle e h).
Proof. reflexivity. Qed.

(** X1.  Whatever events the client emits after the mount, and in
    whatever order, a status that reads [Connected] comes with the
    client set and [isConnected] on, so [publishMessage] succeeds. *)
Theorem status_connected_can_publish (o : connect_outcome)
    (tr : list event) :
  connectionStatus (state (run tr (connectToMQTT o initial))) = Connected ->
  client (state (run tr (connectToMQTT o initial))) = true
  /\ isConnected (state (run tr (connectToMQTT o initial))) = true
  /\ forall topic payload,
      fst (publishMessage topic payload (run tr (connectToMQTT o initial)))
      = true.
Proof.
  assert (Hinv : forall (tr : list event) (h : hook),
             (connectionStatus (state h) = Connected ->
              client (state h) = true /\ isConnected (state h) = true) ->
             connectionStatus (state (run tr h)) = Connected ->
             client (state (run tr h)) = true
             /\ isConnected (state (run tr h)) = true).
  { clear tr. induction tr as [|e tr IH]; intros h Hh; [exact Hh|].
    rewrite run_cons. apply IH.
    destruct e; cbn; try discriminate; auto.
    destruct (is_image_topic topic); cbn; auto. }
  intros Hst.
  destruct (Hinv tr (connectToMQTT o initial)) as [Hc Hi];
    [destruct o; cbn; discriminate|exact Hst|].
  split; [exact Hc|]. split; [exact Hi|].
  intros topic payload. unfold publishMessage. rewrite Hc, Hi. reflexivity.
Qed.

Lemma status_connected_can_publish_witness :
  fst (publishMessage "userxyz/device/cam/capture" "1"
         (run [OnConnect; OnOffline; OnReconnect; OnConnect;
               OnMessage "userxyz/device/cam/stream" "QUJD" "t"]
            (connectToMQTT Returned initial)))
  = true.
Proof.
  apply (status_connected_can_publish Returned
           [OnConnect; OnOffline; OnReconnect; OnConnect;
            OnMessage "userxyz/device/cam/stream" "QUJD" "t"]).
  reflexivity.
Defined.

Lemma run_keeps_clientRef (tr : list event) (h : hook) :
  clientRef (run tr h) = clientRef h.
Proof.
  revert h. induction tr as [|e tr IH]; intros h; [reflexivity|].
  rewrite run_cons, IH. destruct e; cbn; auto.
  destruct (is_image_topic topic); auto.
Qed.

(** X2.  Each [connect] event asks for the two image topics at QoS 1,
    in the same order, and no other event subscribes: after a trace the
    subscription requests are those made before, followed by one pair
    per [connect] event. *)
Theorem subscriptions_follow_connects (tr : list event) (h : hook) :
  subscribed (broker (run tr h))
  = subscribed (broker h) ++ Trace.subscriptions (Trace.connects tr).
Proof.
  revert h. induction tr as [|e tr IH]; intros h.
  - cbn. rewrite app_nil_r. reflexivity.
  - rewrite run_cons, IH.
    destruct e; cbn [Trace.connects Trace.subscriptions]; try reflexivity.
    + cbn. rewrite <- app_assoc. reflexivity.
    + unfold handle. destruct (is_image_topic topic); reflexivity.
Qed.

(** X3.  No event handler publishes, ends the client or changes
    [clientRef]: over any trace the published messages stay as they
    were, so every publish is one made by [publishMessage]. *)
Theorem events_never_publish (tr : list event) (h : hook) :
  published (broker (run tr h)) = published (broker h)
  /\ ended (broker (run tr h)) = ended (broker h)
  /\ clientRef (run tr h) = clientRef h.
Proof.
  revert h. induction tr as [|e tr IH]; intros h; [auto|].
  rewrite run_cons. destruct (IH (handle e h)) as (-> & -> & ->).
  destruct e; cbn; auto.
  destruct (is_image_topic topic); auto.
Qed.

(** X4.  [lastMessage] is the latest message received on one of the two
    image topics, with its base64 text and time stamp; a message on any
    other topic changes nothing at all. *)
Theorem lastMessage_is_latest_image (tr : list event) (h : hook) :
  lastMessage (state (run tr h))
  = Trace.latest_image (lastMessage (state h)) tr
  /\ forall topic b64 ts,
      is_image_topic topic = false -> handle (OnMessage topic b64 ts) h = h.
Proof.
  split.
  - revert h. induction tr as [|e tr IH]; intros h; [reflexivity|].
    rewrite run_cons, IH.
    destruct e; cbn [Trace.latest_image]; try reflexivity.
    unfold handle. destruct (is_image_topic topic); reflexivity.
  - intros topic b64 ts H. unfold handle. rewrite H. reflexivity.
Qed.

Lemma lastMessage_is_latest_image_witness :
  handle (OnMessage "userxyz/device/control/forward" "MQ==" "t") initial
  = initial.
Proof.
  apply (proj2 (lastMessage_is_latest_image [] initial)). reflexivity.
Defined.

(** X5.  An error text stays until the next [connect] or [error] event:
    [disconnect], [offline], [reconnect], [close] and messages leave it
    as it is, so it is still set while the status reads Disconnected or
    Reconnecting. *)
Theorem error_stays_until_connect (tr : list event) (h : hook) :
  forallb (fun e => match e with
                    | OnConnect | OnError _ => false
                    | _ => true
                    end) tr = true ->
  error (state (run tr h)) = error (state h).
Proof.
  revert h. induction tr as [|e tr IH]; intros h H; [reflexivity|].
  cbn [forallb] in H. apply andb_true_iff in H as [He H].
  rewrite run_cons, IH by exact H.
  destruct e; try discriminate He; try reflexivity.
  unfold handle. destruct (is_image_topic topic); reflexivity.
Qed.

Lemma error_stays_until_connect_witness :
  let h := run [OnError "Not authorized"; OnClose; OnOffline; OnReconnect]
             (connectToMQTT Returned initial) in
  error (state h) = Some "Connection failed: Not authorized"
  /\ connectionStatus (state h) = Reconnecting.
Proof.
  split; [|reflexivity].
  exact (error_stays_until_connect [OnClose; OnOffline; OnReconnect]
           (handle (OnError "Not authorized")
              (connectToMQTT Returned initial)) eq_refl).
Defined.

(** X6.  The clean-up of the effect ends the client exactly when
    [mqtt.connect] returned one, whatever events came in between; when
    [mqtt.connect] threw it does nothing.  It leaves the React state
    alone, and running it twice is the same as running it once. *)
Theorem cleanup_ends_mounted_client (o : connect_outcome)
    (tr : list event) :
  let h := run tr (connectToMQTT o initial) in
  (o = Returned -> ended (broker (cleanup h)) = true)
  /\ (o <> Returned -> cleanup h = h)
  /\ state (cleanup h) = state h
  /\ published (broker (cleanup h)) = published (broker h)
  /\ cleanup (cleanup h) = cleanup h.
Proof.
  cbv zeta. set (h := run tr (connectToMQTT o initial)).
  assert (Href : clientRef h = clientRef (connectToMQTT o initial))
    by apply run_keeps_clientRef.
  split; [|split; [|split; [|split]]].
  - intros ->. unfold cleanup. rewrite Href. reflexivity.
  - intros Ho. unfold cleanup. rewrite Href.
    destruct o; [contradiction|reflexivity|reflexivity].
  - unfold cleanup. destruct (clientRef h); reflexivity.
  - unfold cleanup. destruct (clientRef h); reflexivity.
  - unfold cleanup. destruct (clientRef h) eqn:E; cbn; rewrite ?E;
      reflexivity.
Qed.

Lemma cleanup_ends_mounted_client_witness :
  ended (broker (cleanup (run [OnConnect; OnOffline]
                            (connectToMQTT Returned initial)))) = true
  /\ cleanup (run [OnError "x"] (connectToMQTT ThrewOther initial))
     = run [OnError "x"] (connectToMQTT ThrewOther initial).
Proof.
  split.
  - exact (proj1 (cleanup_ends_mounted_client Returned
                    [OnConnect; OnOffline]) eq_refl).
  - refine (proj1 (proj2 (cleanup_ends_mounted_client ThrewOther
                            [OnError "x"])) _).
    discriminate.
Defined.

End BrokerTraces.

(** ** Images and controls of the dashboard *)

Section DashboardProperties.
Import Dashboard.

Lemma string_app_cons (x : ascii) (a b : string) :
  String x a +:+ b = String x (a +:+ b).
Proof. reflexivity. Qed.


Lemma string_app_nil_r (a : string) : a +:+ "" = a.
Proof.
  induction a as [|x a IH]; [reflexivity|].
  rewrite string_app_cons, IH. reflexivity.
Qed.

Lemma string_length_app (a b : string) :
  String.length (a +:+ b) = (String.length a + String.length b)%nat.
Proof.
  induction a as [|x a IH]; [reflexivity|].
  rewrite string_app_cons. cbn. rewrite IH. reflexivity.
Qed.

Lemma occurrences_app (c : ascii) (a b : string) :
  occurrences c (a +:+ b) = (occurrences c a + occurrences c b)%nat.
Proof.
  induction a as [|x a IH]; [reflexivity|].
  rewrite string_app_cons. cbn [occurrences]. rewrite IH. lia.
Qed.

Lemma frames_of_app (a b : list (clock * MQTT.last_message)) :
  frames_of (a ++ b) = frames_of a + frames_of b.
Proof.
  induction a as [|[c m] a IH]; [reflexivity|].
  cbn [app frames_of]. rewrite IH. lia.
Qed.

Lemma captures_of_app (a b : list (clock * MQTT.last_message)) :
  captures_of (a ++ b) = captures_of b ++ captures_of a.
Proof.
  induction a as [|[c m] a IH]; [cbn; rewrite app_nil_r; reflexivity|].
  cbn [app captures_of]. rewrite IH.
  destruct (String.eqb (MQTT.m_topic m) "userxyz/device/cam/capture");
    [rewrite app_assoc|]; reflexivity.
Qed.

Lemma frames_of_nonneg (ms : list (clock * MQTT.last_message)) :
  0 <= frames_of ms.
Proof.
  induction ms as [|[c m] ms IH]; cbn [frames_of]; [lia|].
  destruct (String.eqb (MQTT.m_topic m) "userxyz/device/cam/stream"); lia.
Qed.

(** One commit: the effect handles the last message of the batch. *)
Lemma onCommit_step (c : clock) (batch : list MQTT.last_message)
    (g : images) :
  let seen := match last batch with
              | Some m => [(c, m)]
              | None => []
              end in
  frameCount (onCommit c batch g) = frameCount g + frames_of seen
  /\ capturedImages (onCommit c batch g)
     = captures_of seen ++ capturedImages g.
Proof.
  unfold onCommit. destruct (last batch) as [m|]; cbn.
  - destruct (String.eqb (MQTT.m_topic m) "userxyz/device/cam/stream") eqn:E1.
    + apply String.eqb_eq in E1. rewrite E1. cbn. split; [lia|reflexivity].
    + destruct (String.eqb (MQTT.m_topic m) "userxyz/device/cam/capture");
        cbn; split; try lia; reflexivity.
  - split; [lia|reflexivity].
Qed.

Lemma last_frames (c : clock) (batch : list MQTT.last_message) :
  frames_of (match last batch with
             | Some m => [(c, m)]
             | None => []
             end)
  <= frames_of (map (pair c) batch).
Proof.
  induction batch as [|m batch IH] using rev_ind; [cbn; lia|].
  rewrite last_snoc, map_app, frames_of_app.
  pose proof (frames_of_nonneg (map (pair c) batch)). cbn [map]. lia.
Qed.

(** X7.  The images follow the commits, not the messages.  Over the
    commits of a session, [frameCount] grows by one for each commit
    whose latest message is on the stream topic, and the gallery gains
    one image for each commit whose latest message is on the capture
    topic, the newest first, in front of the images it held.  The
    earlier messages of a batch are skipped, so the count never
    exceeds the stream messages received and falls short of them when
    React batches; when every batch holds at most one message each
    message is seen. *)
Theorem images_follow_commits (bs : list (clock * list MQTT.last_message))
    (g : images) :
  frameCount (onCommits bs g) = frameCount g + frames_of (committed bs)
  /\ capturedImages (onCommits bs g)
     = captures_of (committed bs) ++ capturedImages g
  /\ frames_of (committed bs) <= frames_of (received bs)
  /\ (Forall (fun cb => (length (snd cb) <= 1)%nat) bs ->
      committed bs = received bs)
  /\ (forall c m1 m2,
        MQTT.m_topic m1 = "userxyz/device/cam/stream" ->
        MQTT.m_topic m2 = "userxyz/device/cam/stream" ->
        frameCount (onCommits [(c, [m1; m2])] g) = frameCount g + 1
        /\ frames_of (received [(c, [m1; m2])]) = 2).
Proof.
  split; [|split; [|split; [|split]]].
  - revert g. induction bs as [|[c b] bs IH]; intros g; [cbn; lia|].
    change (onCommits ((c, b) :: bs) g)
      with (onCommits bs (onCommit c b g)).
    rewrite IH, (proj1 (onCommit_step c b g)).
    unfold committed. cbn [flat_map fst snd]. rewrite frames_of_app. lia.
  - revert g. induction bs as [|[c b] bs IH]; intros g; [reflexivity|].
    change (onCommits ((c, b) :: bs) g)
      with (onCommits bs (onCommit c b g)).
    rewrite IH, (proj2 (onCommit_step c b g)).
    unfold committed. cbn [flat_map fst snd].
    rewrite captures_of_app, app_assoc. reflexivity.
  - induction bs as [|[c b] bs IH]; [cbn; lia|].
    unfold committed, received in *. cbn [flat_map fst snd].
    rewrite !frames_of_app. pose proof (last_frames c b). lia.
  - intros H. induction H as [|[c b] bs Hb _ IH]; [reflexivity|].
    unfold committed, received in *. cbn [flat_map fst snd] in *.
    rewrite IH. f_equal.
    destruct b as [|m [|m' b]]; [reflexivity|reflexivity|].
    cbn in Hb. lia.
  - intros c m1 m2 H1 H2. cbn. rewrite H1, H2. cbn. split; [lia|reflexivity].
Qed.

Lemma images_follow_commits_witness :
  let c := {| now := "1700000000000"; iso := "2023-11-14T22:13:20.000Z" |} in
  let m b := {| MQTT.m_topic := "userxyz/device/cam/stream";
                MQTT.m_message := b; MQTT.m_timestamp := "t" |} in
  frameCount (onCommits [(c, [m "QQ=="; m "Qg=="])] initial) = 1
  /\ videoStream (onCommits [(c, [m "QQ=="; m "Qg=="])] initial)
     = "data:image/jpeg;base64,Qg=="
  /\ frameCount (onCommits [(c, [m "QQ=="]); (c, [m "Qg=="])] initial) = 2.
Proof.
  cbv zeta. split; [|split; [reflexivity|]].
  - exact (proj1 (proj2 (proj2 (proj2 (proj2
             (images_follow_commits [] initial))))
             {| now := "1700000000000"; iso := "2023-11-14T22:13:20.000Z" |}
             {| MQTT.m_topic := "userxyz/device/cam/stream";
                MQTT.m_message := "QQ=="; MQTT.m_timestamp := "t" |}
             {| MQTT.m_topic := "userxyz/device/cam/stream";
                MQTT.m_message := "Qg=="; MQTT.m_timestamp := "t" |}
             eq_refl eq_refl)).
  - exact (proj1 (images_follow_commits
             [({| now := "1700000000000";
                  iso := "2023-11-14T22:13:20.000Z" |},
               [{| MQTT.m_topic := "userxyz/device/cam/stream";
                   MQTT.m_message := "QQ=="; MQTT.m_timestamp := "t" |}]);
              ({| now := "1700000000000";
                  iso := "2023-11-14T22:13:20.000Z" |},
               [{| MQTT.m_topic := "userxyz/device/cam/stream";
                   MQTT.m_message := "Qg=="; MQTT.m_timestamp := "t" |}])]
             initial)).
Defined.

Lemma filter_twice {A} (f g : A -> bool) (l : list A) :
  List.filter f (List.filter g l) = List.filter g (List.filter f l).
Proof.
  induction l as [|x l IH]; [reflexivity|]. cbn.
  destruct (g x) eqn:Eg, (f x) eqn:Ef; cbn; rewrite ?Eg, ?Ef, IH; reflexivity.
Qed.

Lemma filter_idem {A} (f : A -> bool) (l : list A) :
  List.filter f (List.filter f l) = List.filter f l.
Proof.
  induction l as [|x l IH]; [reflexivity|]. cbn.
  destruct (f x) eqn:Ef; cbn; rewrite ?Ef, IH; reflexivity.
Qed.

Lemma filter_sublist {A} (f : A -> bool) (l : list A) :
  sublist (List.filter f l) l.
Proof.
  induction l as [|x l IH]; [constructor|]. cbn.
  destruct (f x); [apply sublist_skip|apply sublist_cons]; exact IH.
Qed.

Lemma filter_split_length {A} (f : A -> bool) (l : list A) :
  (length (List.filter (fun x => negb (f x)) l)
   + length (List.filter f l))%nat = length l.
Proof.
  induction l as [|x l IH]; [reflexivity|]. cbn.
  destruct (f x); cbn; lia.
Qed.

(** X8.  [deleteImage] removes every image that carries the id (two
    captures taken in the same millisecond share theirs) and keeps the
    others, in the order they had and as often as they occurred;
    deleting an id the gallery does not hold changes nothing, deleting
    twice is deleting once, and deletions commute.  The video frame and
    the frame count are not touched. *)
Theorem deleteImage_removes_by_id (i j : string) (g : images) :
  (forall img,
      In img (capturedImages (deleteImage i g))
      <-> In img (capturedImages g) /\ id img <> i)
  /\ sublist (capturedImages (deleteImage i g)) (capturedImages g)
  /\ (length (capturedImages (deleteImage i g))
      + length (List.filter (fun img => String.eqb (id img) i)
                  (capturedImages g)))%nat
     = length (capturedImages g)
  /\ ((forall img, In img (capturedImages g) -> id img <> i) ->
      deleteImage i g = g)
  /\ deleteImage i (deleteImage i g) = deleteImage i g
  /\ deleteImage i (deleteImage j g) = deleteImage j (deleteImage i g)
  /\ videoStream (deleteImage i g) = videoStream g
  /\ frameCount (deleteImage i g) = frameCount g.
Proof.
  split; [|split; [|split; [|split; [|split; [|split; [|split]]]]]];
    try reflexivity.
  - intros img. cbn. rewrite List.filter_In, negb_true_iff, String.eqb_neq.
    reflexivity.
  - apply filter_sublist.
  - apply (filter_split_length (fun img => String.eqb (id img) i)).
  - intros H. destruct g as [vs caps fc]. unfold deleteImage. cbn in *.
    f_equal. apply List.forallb_filter_id, List.forallb_forall.
    intros img Hin. apply negb_true_iff, String.eqb_neq, H, Hin.
  - unfold deleteImage. cbn. rewrite filter_idem. reflexivity.
  - unfold deleteImage. cbn. rewrite filter_twice. reflexivity.
Qed.

Lemma deleteImage_removes_by_id_witness :
  let a := {| id := "1700000000000"; base64 := "data:image/jpeg;base64,QQ==";
              timestamp := "2023-11-14T22:13:20.000Z" |} in
  let b := {| id := "1700000000001"; base64 := "data:image/jpeg;base64,Qg==";
              timestamp := "2023-11-14T22:13:20.001Z" |} in
  let g := {| videoStream := ""; capturedImages := [b; a];
              frameCount := 0 |} in
  deleteImage "1700000000002" g = g.
Proof.
  cbv zeta.
  refine (proj1 (proj2 (proj2 (proj2
            (deleteImage_removes_by_id "1700000000002" "" _)))) _).
  intros img [<-|[<-|[]]]; discriminate.
Defined.

(** X9.  Deleting the id of the image a capture message has just added
    gives the gallery without that id as it was before the message: a
    capture followed by its deletion leaves no trace. *)
Theorem capture_then_delete (c : clock) (m : MQTT.last_message)
    (g : images) :
  MQTT.m_topic m = "userxyz/device/cam/capture" ->
  deleteImage (now c) (onLastMessage c (Some m) g)
  = deleteImage (now c) g.
Proof.
  intros H. unfold onLastMessage. rewrite H. cbn.
  unfold deleteImage. cbn. rewrite String.eqb_refl. reflexivity.
Qed.

Lemma capture_then_delete_witness :
  deleteImage "1700000000000"
    (onLastMessage {| now := "1700000000000";
                      iso := "2023-11-14T22:13:20.000Z" |}
       (Some {| MQTT.m_topic := "userxyz/device/cam/capture";
                MQTT.m_message := "QQ=="; MQTT.m_timestamp := "t" |})
       initial)
  = initial.
Proof.
  exact (capture_then_delete
           {| now := "1700000000000"; iso := "2023-11-14T22:13:20.000Z" |}
           {| MQTT.m_topic := "userxyz/device/cam/capture";
              MQTT.m_message := "QQ=="; MQTT.m_timestamp := "t" |}
           initial eq_refl).
Defined.

Lemma replace_colon_dot_clean (s : string) :
  occurrences ":" (replace_colon_dot s) = 0%nat
  /\ occurrences "." (replace_colon_dot s) = 0%nat
  /\ String.length (replace_colon_dot s) = String.length s.
Proof.
  induction s as [|c s (IH1 & IH2 & IH3)]; [auto|].
  cbn [replace_colon_dot occurrences String.length].
  rewrite IH1, IH2, IH3. unfold dash_char.
  destruct (Nat.eqb (nat_of_ascii c) 58) eqn:E1;
    [cbn; auto|].
  destruct (Nat.eqb (nat_of_ascii c) 46) eqn:E2; [cbn; auto|].
  cbn [orb].
  assert (H1 : Ascii.eqb ":" c = false).
  { apply Ascii.eqb_neq. intros <-. discriminate E1. }
  assert (H2 : Ascii.eqb "." c = false).
  { apply Ascii.eqb_neq. intros <-. discriminate E2. }
  rewrite H1, H2. auto.
Qed.

(** X10.  The download name is [esp32cam_], the time stamp with every
    colon and dot turned into a dash, and [.jpg]: it holds no colon,
    its only dot is the one of the extension, and it is 13 characters
    longer than the time stamp. *)
Theorem download_name_is_clean (isoText : string) :
  occurrences ":" (download_name isoText) = 0%nat
  /\ occurrences "." (download_name isoText) = 1%nat
  /\ String.length (download_name isoText)
     = (String.length isoText + 13)%nat.
Proof.
  destruct (replace_colon_dot_clean isoText) as (H1 & H2 & H3).
  unfold download_name.
  rewrite !occurrences_app, !string_length_app, H1, H2, H3.
  cbn. split; [reflexivity|]. split; [reflexivity|]. lia.
Qed.

End DashboardProperties.

Section ControlProperties.
Import MQTT Control.

(** X11.  While the broker is connected, a press followed by the
    release of the same direction publishes ["1"] and then ["0"] on
    [userxyz/device/control/<direction>], both at QoS 1, leaves the
    direction inactive and every other direction as it was, and does
    not touch the hook's state. *)
Theorem press_then_release (direction : string) (p : page) :
  (client (state (mqtt p)) && isConnected (state (mqtt p)))%bool = true ->
  let p' := handleControlRelease direction (handleControlPress direction p) in
  published (broker (mqtt p'))
  = published (broker (mqtt p))
    ++ [{| p_topic := "userxyz/device/control/" +:+ direction;
           p_message := "1"; p_qos := 1 |};
        {| p_topic := "userxyz/device/control/" +:+ direction;
           p_message := "0"; p_qos := 1 |}]
  /\ activeControls p' = activeControls p ∖ {[direction]}
  /\ state (mqtt p') = state (mqtt p)
  /\ subscribed (broker (mqtt p')) = subscribed (broker (mqtt p)).
Proof.
  intros H. unfold handleControlRelease, handleControlPress, publishMessage.
  rewrite H. cbn. rewrite H. cbn.
  rewrite <- app_assoc. split; [reflexivity|].
  split; [|split; reflexivity].
  apply set_eq. intros x.
  rewrite !elem_of_difference, elem_of_union. tauto.
Qed.

Lemma press_then_release_witness :
  let p := {| mqtt := run [OnConnect] (connectToMQTT Returned initial);
              activeControls := {["left"]} |} in
  activeControls (handleControlRelease "forward"
                    (handleControlPress "forward" p))
  = {["left"]} ∖ {["forward"]}.
Proof.
  exact (proj1 (proj2 (press_then_release "forward"
           {| mqtt := run [OnConnect] (connectToMQTT Returned initial);
              activeControls := {["left"]} |} eq_refl))).
Defined.

End ControlProperties.

(** ** The socket addresses *)

Section UrlProperties.
Import Url.

Lemma dashes_app (x : string) : "--" +:+ x = String "-" (String "-" x).
Proof. reflexivity. Qed.

Lemma is_dash_eq (c : ascii) : is_dash c = true -> c = "-"%char.
Proof.
  unfold is_dash. intros H. apply Nat.eqb_eq in H.
  rewrite <- (ascii_nat_embedding c), H. reflexivity.
Qed.

Lemma digit_not_dash (c : ascii) : is_digit c = true -> is_dash c = false.
Proof.
  unfold is_digit, is_dash. intros H.
  apply andb_true_iff in H as [H _]. apply Nat.leb_le in H.
  apply Nat.eqb_neq. lia.
Qed.

Lemma after_dashes_shape (s r : string) :
  after_dashes s = Some r -> s = "--" +:+ r.
Proof.
  destruct s as [|a [|b s]]; try discriminate. cbn.
  destruct (is_dash a) eqn:Ea; [|discriminate].
  destruct (is_dash b) eqn:Eb; [|discriminate].
  intros [= <-]. rewrite (is_dash_eq a Ea), (is_dash_eq b Eb). reflexivity.
Qed.

Lemma skip_digits_split (s : string) :
  exists ds, s = ds +:+ skip_digits s /\ all_digits ds = true.
Proof.
  induction s as [|c s (ds & Hs & Hd)]; [exists ""; auto|].
  cbn [skip_digits]. destruct (is_digit c) eqn:E.
  - exists (String c ds). rewrite string_app_cons, <- Hs.
    cbn. rewrite E, Hd. auto.
  - exists "". auto.
Qed.

Lemma skip_digits_app (ds t : string) :
  all_digits ds = true -> skip_digits (ds +:+ "--" +:+ t) = "--" +:+ t.
Proof.
  induction ds as [|c ds IH]; intros H; [reflexivity|].
  cbn in H. apply andb_true_iff in H as [Hc Hd].
  rewrite string_app_cons. cbn [skip_digits]. rewrite Hc. apply IH, Hd.
Qed.

(** A match at the start of [s] is ["--"], a non-empty run of digits and
    ["--"]. *)
Lemma match_here_shape (s rest : string) :
  match_here s = Some rest ->
  exists ds, s = "--" +:+ ds +:+ "--" +:+ rest
             /\ all_digits ds = true /\ ds <> "".
Proof.
  unfold match_here. destruct (after_dashes s) as [[|d r]|] eqn:E;
    try discriminate.
  destruct (is_digit d) eqn:Ed; [|discriminate]. intros H.
  apply after_dashes_shape in E, H.
  destruct (skip_digits_split r) as (ds & Hr & Hds).
  exists (String d ds). split; [|split].
  - rewrite E, string_app_cons. do 3 f_equal.
    rewrite Hr at 1. rewrite H. reflexivity.
  - cbn. rewrite Ed, Hds. reflexivity.
  - discriminate.
Qed.

Lemma match_here_build (ds rest : string) :
  all_digits ds = true -> ds <> "" ->
  match_here ("--" +:+ ds +:+ "--" +:+ rest) = Some rest.
Proof.
  intros Hd Hne. destruct ds as [|d ds]; [contradiction|].
  cbn in Hd. apply andb_true_iff in Hd as [Hd Hds].
  rewrite dashes_app, string_app_cons. unfold match_here. cbn [after_dashes].
  cbn [is_dash nat_of_ascii]. change (is_dash "-") with true. cbn [andb].
  rewrite Hd, (skip_digits_app ds rest Hds). reflexivity.
Qed.


Lemma replace_segment_none (rep s : string) :
  has_segment s = false -> replace_segment rep s = s.
Proof.
  induction s as [|c s IH]; [reflexivity|]. cbn [has_segment replace_segment].
  destruct (match_here (String c s)); [discriminate|].
  intros H. rewrite IH by exact H. reflexivity.
Qed.


(** X12.  On a host name without a [--<digits>--] segment (any host
    outside the web container) the port is not used: the address is
    [ws://], the host name as it is and the path, the same for every
    port. *)
Theorem url_ignores_port_without_segment (hostname : string) :
  has_segment hostname = false ->
  forall (port : N) (path : string),
    getWebSocketUrl hostname port path = "ws://" +:+ hostname +:+ path.
Proof.
  intros H port path. unfold getWebSocketUrl.
  rewrite replace_segment_none by exact H. reflexivity.
Qed.

Lemma url_ignores_port_without_segment_witness :
  getWebSocketUrl "localhost" 8080 "/signaling/viewer/A"
  = "ws://localhost/signaling/viewer/A"
  /\ getWebSocketUrl "localhost" 8081 "/stream/A" = "ws://localhost/stream/A".
Proof.
  split.
  - exact (url_ignores_port_without_segment "localhost" eq_refl 8080%N
             "/signaling/viewer/A").
  - exact (url_ignores_port_without_segment "localhost" eq_refl 8081%N
             "/stream/A").
Defined.



(** The first character of a text survives the replacement. *)
Lemma replace_segment_head (rep t : string) (c : ascii) (u : string) :
  replace_segment rep t = String c u -> exists t', t = String c t'.
Proof.
  destruct t as [|d t]; [discriminate|]. cbn [replace_segment].
  destruct (match_here (String d t)) as [rest|] eqn:E.
  - destruct (match_here_shape _ _ E) as (ds & Hs & _).
    rewrite Hs, !dashes_app. intros [= <- _]. eauto.
  - intros [= <- _]. eauto.
Qed.

Lemma match_here_digit (d : ascii) (t : string) :
  is_digit d = true -> match_here (String d t) = None.
Proof.
  intros H. unfold match_here. destruct t as [|b t]; [reflexivity|].
  cbn [after_dashes]. rewrite (digit_not_dash d H). reflexivity.
Qed.

(** A run of digits in front of the replaced text was in front of the
    original. *)
Lemma replace_segment_digits (rep : string) (ds : string) :
  all_digits ds = true ->
  forall t u, replace_segment rep t = ds +:+ u ->
              exists t', t = ds +:+ t' /\ replace_segment rep t' = u.
Proof.
  induction ds as [|d ds IH]; intros Hd t u H; [exists t; auto|].
  cbn in Hd. apply andb_true_iff in Hd as [Hd Hds].
  rewrite string_app_cons in H.
  destruct (replace_segment_head _ _ _ _ H) as (t1 & ->).
  cbn [replace_segment] in H. rewrite (match_here_digit d t1 Hd) in H.
  injection H as H. destruct (IH Hds t1 u H) as (t' & -> & Hu).
  exists t'. auto.
Qed.

Lemma replace_segment_dashes (rep t x : string) :
  replace_segment rep t = "--" +:+ x -> exists t', t = "--" +:+ t'.
Proof.
  rewrite dashes_app. intros H.
  destruct (replace_segment_head _ _ _ _ H) as (t1 & ->).
  cbn [replace_segment] in H.
  destruct (match_here (String "-" t1)) as [rest|] eqn:E.
  - destruct (match_here_shape _ _ E) as (ds & Hs & _).
    rewrite Hs. eauto.
  - injection H as H.
    destruct (replace_segment_head _ _ _ _ H) as (t2 & ->).
    exists t2. reflexivity.
Qed.

(** Replacing further along the text creates no match at its start. *)
Lemma match_here_after_replace (rep : string) (c : ascii) (r x : string) :
  match_here (String c (replace_segment rep r)) = Some x ->
  exists y, match_here (String c r) = Some y.
Proof.
  intros H. destruct (match_here_shape _ _ H) as (ds & Hs & Hd & Hne).
  rewrite dashes_app in Hs. injection Hs as -> Hs.
  destruct (replace_segment_head _ _ _ _ Hs) as (r1 & ->).
  cbn [replace_segment] in Hs.
  destruct (match_here (String "-" r1)) as [rest|] eqn:E.
  - exfalso. rewrite dashes_app in Hs. injection Hs as Hs.
    destruct ds as [|d ds]; [contradiction|].
    rewrite string_app_cons in Hs. injection Hs as <- _.
    cbn in Hd. discriminate Hd.
  - injection Hs as Hs.
    destruct (replace_segment_digits rep ds Hd _ _ Hs) as (t' & -> & Ht').
    destruct (replace_segment_dashes _ _ _ Ht') as (t'' & ->).
    exists t''.
    change (String "-" (String "-" (ds +:+ "--" +:+ t'')))
      with ("--" +:+ ds +:+ "--" +:+ t'').
    apply match_here_build; assumption.
Qed.

Lemma replace_segment_twice (rep1 rep2 s : string) :
  all_digits rep1 = true -> rep1 <> "" ->
  replace_segment rep2 (replace_segment rep1 s) = replace_segment rep2 s.
Proof.
  intros Hd Hne. induction s as [|c s IH]; [reflexivity|].
  cbn [replace_segment].
  destruct (match_here (String c s)) as [rest|] eqn:E.
  - rewrite dashes_app. cbn [replace_segment].
    change (String "-" (String "-" (rep1 +:+ "--" +:+ rest)))
      with ("--" +:+ rep1 +:+ "--" +:+ rest).
    rewrite (match_here_build rep1 rest Hd Hne). reflexivity.
  - cbn [replace_segment].
    destruct (match_here (String c (replace_segment rep1 s))) as [x|] eqn:Ex.
    + destruct (match_here_after_replace _ _ _ _ Ex) as (y & Hy).
      rewrite E in Hy. discriminate.
    + rewrite IH. reflexivity.
Qed.

Lemma pretty_N_char_digit (d : N) : is_digit (pretty_N_char d) = true.
Proof. unfold pretty_N_char. repeat case_match; reflexivity. Qed.

Lemma pretty_N_go_digits (x : N) :
  forall s, all_digits s = true -> s <> "" ->
            all_digits (pretty_N_go x s) = true /\ pretty_N_go x s <> "".
Proof.
  induction x as [x IH] using (well_founded_induction N.lt_wf_0).
  intros s Hs Hne. destruct (decide (x = 0)%N) as [->|Hx].
  - rewrite pretty_N_go_0. auto.
  - rewrite pretty_N_go_step by lia. apply IH.
    + apply N.div_lt; lia.
    + cbn. rewrite pretty_N_char_digit, Hs. reflexivity.
    + discriminate.
Qed.

Lemma pretty_N_digits (x : N) :
  all_digits (pretty x) = true /\ pretty x <> "".
Proof.
  unfold pretty, pretty_N. destruct (decide (x = 0)%N) as [->|Hx].
  - split; [reflexivity|discriminate].
  - rewrite pretty_N_go_step by lia. apply pretty_N_go_digits.
    + cbn. rewrite pretty_N_char_digit. reflexivity.
    + discriminate.
Qed.

(** X14.  Rewriting is stable: a host name already rewritten for one
    port, rewritten for another, gives the address the original host
    name gives for that other port.  The port segment is replaced, never
    stacked. *)
Theorem url_rewrite_composes (hostname : string) (p q : N)
    (path : string) :
  getWebSocketUrl (replace_segment (pretty p) hostname) q path
  = getWebSocketUrl hostname q path.
Proof.
  unfold getWebSocketUrl.
  destruct (pretty_N_digits p) as [Hd Hne].
  rewrite (replace_segment_twice _ _ _ Hd Hne). reflexivity.
Qed.

End UrlProperties.

(** ** The viewers: what single events do *)

Section ViewerEvents.
Import Viewer.

Lemma viewer_eta (s : viewer) :
  {| st := st s; rf := rf s; sockets := sockets s; peers := peers s;
     attempts := attempts s |} = s.
Proof. destruct s; reflexivity. Qed.

Lemma alter_fixed {A} (f : A -> A) (l : list A) (i : nat) (x : A) :
  l !! i = Some x -> f x = x -> alter f i l = l.
Proof.
  intros Hl Hf. apply list_eq. intros j. rewrite list_lookup_alter.
  destruct (decide (i = j)) as [<-|]; [|reflexivity].
  rewrite Hl. cbn. rewrite Hf. reflexivity.
Qed.

Lemma disconnect_setError (v : variant) (e : option string) (s : viewer) :
  disconnect v (setError e s) = disconnect v s.
Proof.
  destruct s as [u [vr pr wr sr] so pe at_].
  destruct v, pr, wr, sr, vr; reflexivity.
Qed.

(** X15.  A [stream-ended] message is a [disconnect] and nothing more,
    on the signaling socket of either viewer and on the frame socket of
    [WebcamViewer]: the text "Stream has ended" that the handler sets is
    overwritten by [disconnect] in the same step, so [error] is empty
    and the status reads Disconnected afterwards.  The frame socket of
    [StreamViewer] ignores the message. *)
Theorem stream_ended_is_disconnect (v : variant) (s : viewer) (h : nat)
    (w : websocket) (a : attempt) :
  sockets s !! h = Some w -> readyState w = OPEN ->
  attempts s !! ws_attempt w = Some a ->
  let s' := deliver v (SocketMessage h (Json StreamEnded)) s in
  (ws_role w = Signaling \/ v = WebcamViewer ->
   s' = disconnect v s /\ error (st s') = None
   /\ getStatusText s' = StatusDisconnected)
  /\ (ws_role w = Frame -> v = StreamViewer -> s' = s).
Proof.
  intros Hw Ho Ha s'. subst s'. unfold deliver. rewrite Hw, Ho, Ha.
  split.
  - intros Hcase.
    assert (E : match ws_role w with
                | Signaling =>
                    signaling_onmessage v (ws_attempt w) a (Json StreamEnded) s
                | Frame =>
                    stream_onmessage v (ws_attempt w) (Json StreamEnded) s
                end = disconnect v s).
    { destruct (ws_role w) eqn:Er; cbn; [apply disconnect_setError|].
      destruct Hcase as [Hc| ->]; [discriminate|]. apply disconnect_setError. }
    rewrite E. split; [reflexivity|].
    destruct s as [u [vr pr wr sr] so pe at_].
    destruct v, pr, wr, sr, vr; split; reflexivity.
  - intros -> ->. reflexivity.
Qed.

Lemma stream_ended_is_disconnect_witness :
  let s := run StreamViewer
             [TypeId "A"; ClickConnect; Browser (SocketOpen 0);
              Browser (SocketMessage 0 (Json (Offer "o")));
              Browser (PeerTrack 0 (Some 1%nat))] initial in
  let s' := deliver StreamViewer (SocketMessage 0 (Json StreamEnded)) s in
  getStatusText s = StatusConnected
  /\ s' = disconnect StreamViewer s /\ error (st s') = None.
Proof.
  cbv zeta. split; [reflexivity|].
  destruct (stream_ended_is_disconnect StreamViewer
              (run StreamViewer
                 [TypeId "A"; ClickConnect; Browser (SocketOpen 0);
                  Browser (SocketMessage 0 (Json (Offer "o")));
                  Browser (PeerTrack 0 (Some 1%nat))] initial)
              0%nat
              {| ws_port := 8080; ws_path := "/signaling/viewer/A";
                 readyState := OPEN; closeFired := false;
                 sent := [JoinStream "A"; AnswerOut "answer:o" "A"];
                 ws_attempt := 0; ws_role := Signaling |}
              {| a_broadcastId := "A"; a_isConnected := false;
                 a_signaling := 0; a_peer := 0; a_webrtc := Fulfilled;
                 a_signalingTimeout := None; a_stream := None;
                 a_websocket := None; a_streamTimeout := None |}
              eq_refl eq_refl eq_refl) as [H _].
  destruct (H (or_introl eq_refl)) as (H1 & H2 & _).
  split; [exact H1|exact H2].
Defined.

(** X16.  Input the handlers do not understand is dropped without any
    change of state, in both viewers: a text that is not JSON and a
    message of unknown type on either socket, a binary frame on the
    signaling socket, offers, candidates and [stream-not-found] on the
    frame socket. *)
Theorem unknown_input_is_ignored (v : variant) (s : viewer) (h : nat) :
  deliver v (SocketMessage h NotJson) s = s
  /\ deliver v (SocketMessage h (Json OtherType)) s = s
  /\ (forall w url,
        sockets s !! h = Some w -> ws_role w = Signaling ->
        deliver v (SocketMessage h (Blob url)) s = s)
  /\ (forall w m,
        sockets s !! h = Some w -> ws_role w = Frame ->
        match m with
        | Offer _ | IceCandidate _ | StreamNotFound => True
        | _ => False
        end ->
        deliver v (SocketMessage h (Json m)) s = s).
Proof.
  unfold deliver. repeat split.
  - destruct (sockets s !! h) as [w|]; [|reflexivity].
    destruct (readyState w), (attempts s !! ws_attempt w), (ws_role w);
      reflexivity.
  - destruct (sockets s !! h) as [w|]; [|reflexivity].
    destruct (readyState w), (attempts s !! ws_attempt w), (ws_role w);
      reflexivity.
  - intros w url -> ->.
    destruct (readyState w), (attempts s !! ws_attempt w); reflexivity.
  - intros w m -> -> Hm.
    destruct (readyState w), (attempts s !! ws_attempt w); try reflexivity;
      destruct m; try contradiction; reflexivity.
Qed.

Lemma unknown_input_is_ignored_witness :
  let s := run WebcamViewer
             [TypeId "A"; ClickConnect; Browser (SocketError 0);
              Browser (SocketOpen 1)] initial in
  deliver WebcamViewer (SocketMessage 1 (Json (Offer "o"))) s = s.
Proof.
  cbv zeta.
  refine (proj2 (proj2 (proj2 (unknown_input_is_ignored WebcamViewer
            (run WebcamViewer
               [TypeId "A"; ClickConnect; Browser (SocketError 0);
                Browser (SocketOpen 1)] initial) 1%nat)))
            {| ws_port := 8081; ws_path := "/stream/A"; readyState := OPEN;
               closeFired := false; sent := []; ws_attempt := 0;
               ws_role := Frame |} (Offer "o") eq_refl eq_refl I).
Defined.

(** X17.  A [stream-info] message touches the viewer count and the
    quality only, on either socket and in either viewer: the connection
    flags, the error, the refs and every socket, peer connection and
    attempt are as before. *)
Theorem stream_info_is_out_of_band (v : variant) (s : viewer) (h : nat)
    (n : option Z) (q : option string) :
  let s' := deliver v (SocketMessage h (Json (StreamInfo n q))) s in
  rf s' = rf s /\ sockets s' = sockets s /\ peers s' = peers s
  /\ attempts s' = attempts s
  /\ isConnecting (st s') = isConnecting (st s)
  /\ isConnected (st s') = isConnected (st s)
  /\ error (st s') = error (st s)
  /\ broadcastId (st s') = broadcastId (st s)
  /\ connectionType (st s') = connectionType (st s).
Proof.
  cbv zeta. unfold deliver.
  destruct (sockets s !! h) as [w|]; [|repeat split].
  destruct (readyState w), (attempts s !! ws_attempt w), (ws_role w);
    repeat split.
Qed.

(** X18.  A local ICE candidate is forwarded at once or not at all.
    With the attempt's signaling socket open it is sent there with the
    attempt's broadcast id, and nothing else changes; with the socket
    still connecting, closing or closed the candidate is lost (there is
    no queue for it); the end-of-candidates event sends nothing. *)
Theorem local_candidate_is_sent_or_lost (v : variant) (s : viewer)
    (p : nat) (pc : peer) (a : attempt) (w : websocket) (c : candidate) :
  peers s !! p = Some pc -> pc_closed pc = false ->
  attempts s !! pc_attempt pc = Some a ->
  sockets s !! a_signaling a = Some w ->
  let s' := deliver v (PeerIceCandidate p (Some c)) s in
  (readyState w = OPEN ->
   sent <$> sockets s' !! a_signaling a
   = Some (sent w ++ [IceCandidateOut c (attempt_id v a)])
   /\ (forall h, h <> a_signaling a -> sockets s' !! h = sockets s !! h)
   /\ st s' = st s /\ rf s' = rf s /\ peers s' = peers s
   /\ attempts s' = attempts s)
  /\ (readyState w <> OPEN -> s' = s)
  /\ deliver v (PeerIceCandidate p None) s = s.
Proof.
  intros Hp Hc Ha Hw s'. subst s'. unfold deliver. rewrite Hp, Hc, Ha.
  unfold peer_onicecandidate, ws_send, with_sockets. split; [|split].
  - intros Ho. cbn [sockets st rf peers attempts].
    rewrite list_lookup_alter_eq, Hw. cbn [fmap option_fmap option_map].
    unfold ws_send_obj. rewrite Ho. cbn [sent].
    split; [reflexivity|]. split; [|auto].
    intros h Hne. apply list_lookup_alter_ne. congruence.
  - intros Hno.
    rewrite (alter_fixed _ _ _ w Hw).
    + apply viewer_eta.
    + unfold ws_send_obj. destruct (readyState w); congruence.
  - reflexivity.
Qed.

Lemma local_candidate_is_sent_or_lost_witness :
  let s := connect StreamViewer "A" initial in
  deliver StreamViewer (PeerIceCandidate 0 (Some "host 1")) s = s.
Proof.
  cbv zeta.
  refine (proj1 (proj2 (local_candidate_is_sent_or_lost StreamViewer
            (connect StreamViewer "A" initial) 0%nat (new_peer 0)
            {| a_broadcastId := "A"; a_isConnected := false;
               a_signaling := 0; a_peer := 0; a_webrtc := Pending;
               a_signalingTimeout := None; a_stream := None;
               a_websocket := None; a_streamTimeout := None |}
            (new_websocket 8080 "/signaling/viewer/A" 0 Signaling)
            "host 1" eq_refl eq_refl eq_refl eq_refl)) _).
  discriminate.
Defined.

End ViewerEvents.

(** ** The viewers: timers and settled attempts *)

Section SettledAttempts.
Import Viewer.

Ltac look Ha :=
  repeat first
    [ rewrite list_lookup_alter_eq
    | rewrite Ha
    | progress cbn [fmap option_fmap option_map attempts with_attempts
                    with_sockets with_st with_rf with_peers
                    setIsConnected setIsConnecting setConnectionType setError
                    a_with_signalingTimeout a_with_streamTimeout
                    a_with_webrtc a_with_websocket a_start_stream
                    a_signalingTimeout a_streamTimeout a_webrtc a_websocket
                    ws_send set_websocketRef] ].

Lemma clearTimeout_not_armed (t : option timer) (d : Z) :
  clearTimeout t <> Some (Armed d).
Proof. destruct t as [[| |]|]; discriminate. Qed.

Lemma expiry_without_armed_timer (v : variant) (s : viewer) (k : nat)
    (a : attempt) :
  attempts s !! k = Some a ->
  ((forall d, a_signalingTimeout a <> Some (Armed d)) ->
   deliver v (TimerExpired k SignalingTimer) s = s)
  /\ ((forall d, a_streamTimeout a <> Some (Armed d)) ->
      deliver v (TimerExpired k StreamTimer) s = s).
Proof.
  intros Ha. unfold deliver. rewrite Ha. split; intros H.
  - destruct (a_signalingTimeout a) as [[d| |]|]; try reflexivity.
    destruct (H d eq_refl).
  - destruct (a_streamTimeout a) as [[d| |]|]; try reflexivity.
    destruct (H d eq_refl).
Qed.

(** X19.  In [WebcamViewer] the open or error event of a connecting
    socket clears that socket's timer, so the timer's expiry right after
    it does nothing: a socket that opened in time is not failed by its
    timeout, and a socket that failed is not failed twice. *)
Theorem open_or_error_disarms_timer (s : viewer) (h : nat)
    (w : websocket) (a : attempt) :
  sockets s !! h = Some w -> readyState w = CONNECTING ->
  closeFired w = false -> attempts s !! ws_attempt w = Some a ->
  forall e, e = SocketOpen h \/ e = SocketError h ->
  deliver WebcamViewer
    (TimerExpired (ws_attempt w)
       (match ws_role w with
        | Signaling => SignalingTimer
        | Frame => StreamTimer
        end)) (deliver WebcamViewer e s) = deliver WebcamViewer e s.
Proof.
  intros Hw Ho Hf Ha e He.
  assert (H : exists a1,
             attempts (deliver WebcamViewer e s) !! ws_attempt w = Some a1
             /\ match ws_role w with
                | Signaling =>
                    a_signalingTimeout a1
                    = clearTimeout (a_signalingTimeout a)
                | Frame =>
                    a_streamTimeout a1 = clearTimeout (a_streamTimeout a)
                end).
  { destruct He as [-> | ->]; unfold deliver; rewrite Hw, Ho, ?Hf, ?Ha;
      destruct (ws_role w).
    - unfold signaling_onopen, clear_signalingTimeout. look Ha. eauto.
    - unfold stream_onopen, clear_streamTimeout, resolve_websocket.
      look Ha. destruct (a_websocket a) as [[| |r]|]; look Ha; eauto.
    - unfold signaling_onerror, clear_signalingTimeout, reject_webrtc.
      look Ha. destruct (a_webrtc a); look Ha; eauto.
      unfold connectWebSocket. look Ha.
      match goal with |- context [if ?b then _ else _] => destruct b end;
        [unfold reject_websocket|]; look Ha; eauto.
    - unfold stream_onerror, clear_streamTimeout, reject_websocket.
      look Ha. destruct (a_websocket a) as [[| |r]|]; look Ha; eauto. }
  destruct H as (a1 & Ha1 & Ht).
  destruct (expiry_without_armed_timer WebcamViewer _ _ _ Ha1) as [H1 H2].
  destruct (ws_role w).
  - apply H1. intros d. rewrite Ht. apply clearTimeout_not_armed.
  - apply H2. intros d. rewrite Ht. apply clearTimeout_not_armed.
Qed.

Lemma open_or_error_disarms_timer_witness :
  let s := deliver WebcamViewer (SocketOpen 0)
             (connect WebcamViewer "A" initial) in
  deliver WebcamViewer (TimerExpired 0 SignalingTimer) s = s.
Proof.
  exact (open_or_error_disarms_timer (connect WebcamViewer "A" initial)
           0%nat (new_websocket 8080 "/signaling/viewer/A" 0 Signaling)
           {| a_broadcastId := "A"; a_isConnected := false;
              a_signaling := 0; a_peer := 0; a_webrtc := Pending;
              a_signalingTimeout := Some (Armed 10000); a_stream := None;
              a_websocket := None; a_streamTimeout := None |}
           eq_refl eq_refl eq_refl eq_refl (SocketOpen 0)
           (or_introl eq_refl)).
Defined.

(** X20.  Once an attempt's promise is settled, failures reported on
    its sockets no longer reach [connectToStream].  On the signaling
    socket an [error] or [stream-not-found] message then changes
    nothing at all.  On the frame socket an [error] message only puts
    its text in [error]: [isConnected] stays as it is and no transport
    is closed, so a viewer that was connected keeps playing while the
    status reads Error. *)
Theorem failures_after_settling (v : variant) (s : viewer) (h : nat)
    (w : websocket) (a : attempt) :
  sockets s !! h = Some w -> readyState w = OPEN ->
  attempts s !! ws_attempt w = Some a ->
  (ws_role w = Signaling -> a_webrtc a <> Pending ->
   (forall m, deliver v (SocketMessage h (Json (ErrorMessage m))) s = s)
   /\ deliver v (SocketMessage h (Json StreamNotFound)) s = s)
  /\ (ws_role w = Frame -> a_websocket a <> Some Pending ->
      forall m,
        deliver v (SocketMessage h (Json (ErrorMessage m))) s
        = setError m s).
Proof.
  intros Hw Ho Ha. unfold deliver. rewrite Hw, Ho, Ha. split.
  - intros -> Hp. unfold signaling_onmessage, reject_webrtc. rewrite Ha.
    destruct (a_webrtc a); [contradiction| |]; destruct v; auto.
  - intros -> Hp m. unfold stream_onmessage, reject_websocket.
    cbn [attempts setError with_st]. rewrite Ha.
    destruct (a_websocket a) as [[| |r]|]; [contradiction|..]; reflexivity.
Qed.

Lemma failures_after_settling_witness :
  let s := run WebcamViewer
             [TypeId "A"; ClickConnect; Browser (SocketError 0);
              Browser (SocketOpen 1)] initial in
  let s' := deliver WebcamViewer
              (SocketMessage 1 (Json (ErrorMessage (Some "overloaded")))) s in
  s' = setError (Some "overloaded") s
  /\ isConnected (st s') = true /\ getStatusText s' = StatusError.
Proof.
  cbv zeta.
  rewrite (proj2 (failures_after_settling WebcamViewer
            (run WebcamViewer
               [TypeId "A"; ClickConnect; Browser (SocketError 0);
                Browser (SocketOpen 1)] initial) 1%nat
            {| ws_port := 8081; ws_path := "/stream/A"; readyState := OPEN;
               closeFired := false; sent := []; ws_attempt := 0;
               ws_role := Frame |}
            (a_with_websocket (Some Fulfilled)
               (a_with_streamTimeout (Some Cleared)
                  (a_start_stream 1 (Some (Armed 10000))
                     (a_with_webrtc
                        (Rejected "Signaling server connection failed")
                        (a_with_signalingTimeout (Some Cleared)
                           {| a_broadcastId := "A"; a_isConnected := false;
                              a_signaling := 0; a_peer := 0;
                              a_webrtc := Pending;
                              a_signalingTimeout := Some (Armed 10000);
                              a_stream := None; a_websocket := None;
                              a_streamTimeout := None |})))))
            eq_refl eq_refl eq_refl) eq_refl ltac:(discriminate)
            (Some "overloaded")).
  repeat split.
Defined.



End SettledAttempts.

(** ** The viewers: invariants of every run *)

Section ViewerInvariants.
Import Viewer Protocol.

Lemma run_snoc (v : variant) (tr : list action) (a : action) (s : viewer) :
  run v (tr ++ [a]) s = act v a (run v tr s).
Proof. unfold run. rewrite fold_left_app. reflexivity. Qed.

Lemma st_resolve_StreamViewer (k : nat) (s : viewer) :
  st (resolve_webrtc StreamViewer k s) = st s
  /\ st (resolve_websocket StreamViewer k s) = st s.
Proof.
  unfold resolve_webrtc, resolve_websocket.
  destruct (attempts s !! k) as [a|]; [|auto].
  destruct (a_webrtc a), (a_websocket a) as [[| |]|]; auto.
Qed.

Lemma reject_websocket_flags (v : variant) (k : nat) (r : string)
    (s : viewer) :
  exclusive_flags s -> exclusive_flags (reject_websocket v k r s).
Proof.
  unfold exclusive_flags, reject_websocket.
  destruct (attempts s !! k) as [a|]; [|auto].
  destruct (a_websocket a) as [[| |]|]; auto.
Qed.

Lemma connectWebSocket_flags (v : variant) (k : nat) (s : viewer) :
  exclusive_flags s -> exclusive_flags (connectWebSocket v k s).
Proof.
  intros H. unfold connectWebSocket.
  destruct (attempts s !! k) as [a|]; [|exact H].
  match goal with |- context [if ?b then _ else _] => destruct b end;
    [|exact H].
  apply reject_websocket_flags. exact H.
Qed.

Lemma reject_webrtc_flags (v : variant) (k : nat) (r : string)
    (s : viewer) :
  exclusive_flags s -> exclusive_flags (reject_webrtc v k r s).
Proof.
  intros H. unfold reject_webrtc.
  destruct (attempts s !! k) as [a|]; [|exact H].
  destruct (a_webrtc a); try exact H.
  apply connectWebSocket_flags. exact H.
Qed.

Lemma connectToStream_isConnected (v : variant) (s : viewer) :
  isConnected (st (connectToStream v s)) = isConnected (st s).
Proof.
  unfold connectToStream, connectWebRTC.
  destruct (Js.blank (broadcastId (st s))); [reflexivity|].
  match goal with |- context [if ?b then _ else _] => destruct b end;
    destruct v; reflexivity.
Qed.

Lemma disconnect_flags (v : variant) (s : viewer) :
  exclusive_flags (disconnect v s).
Proof.
  unfold exclusive_flags.
  destruct s as [u [vr pr wr sr] so pe at_].
  destruct v, pr, wr, sr, vr; reflexivity.
Qed.

Lemma StreamViewer_deliver_flags (e : event) (s : viewer) :
  exclusive_flags s -> exclusive_flags (deliver StreamViewer e s).
Proof.
  intros H. destruct e as [h|h d|h|h code|p st0|p c|p cs|k t]; unfold deliver.
  - destruct (sockets s !! h) as [w|]; [|exact H].
    destruct (readyState w), (attempts s !! ws_attempt w) as [a|];
      try exact H.
    destruct (ws_role w); [exact H|].
    unfold exclusive_flags, stream_onopen.
    rewrite (proj2 (st_resolve_StreamViewer _ _)). reflexivity.
  - destruct (sockets s !! h) as [w|]; [|exact H].
    destruct (readyState w), (attempts s !! ws_attempt w) as [a|];
      try exact H.
    destruct (ws_role w).
    + unfold signaling_onmessage.
      destruct d as [url|[o|c|n q|m| | |]|]; try exact H.
      * destruct (peers s !! a_peer a) as [pc|]; [|exact H].
        destruct (pc_accept_offer o pc) as [pc' [ans|]]; exact H.
      * apply reject_webrtc_flags. exact H.
      * apply disconnect_flags.
    + unfold stream_onmessage.
      destruct d as [url|[o|c|n q|m| | |]|]; try exact H.
      * destruct (videoRef (rf s)); exact H.
      * apply reject_websocket_flags. exact H.
  - destruct (sockets s !! h) as [w|]; [|exact H].
    destruct (readyState w), (closeFired w); try exact H;
      destruct (ws_role w);
      first [ apply reject_webrtc_flags; exact H
            | apply reject_websocket_flags; exact H ].
  - destruct (sockets s !! h) as [w|]; [|exact H].
    destruct (closeFired w), (attempts s !! ws_attempt w) as [a|];
      try exact H.
    destruct (ws_role w); [exact H|].
    unfold exclusive_flags. cbn. apply andb_false_r.
  - destruct (peers s !! p) as [pc|]; [|exact H].
    destruct (pc_closed pc); [exact H|]. unfold peer_ontrack.
    destruct (videoRef (rf s)), st0; try exact H.
    unfold exclusive_flags.
    rewrite (proj1 (st_resolve_StreamViewer _ _)). reflexivity.
  - destruct (peers s !! p) as [pc|]; [|exact H].
    destruct (pc_closed pc), (attempts s !! pc_attempt pc) as [a|];
      try exact H.
    destruct c; exact H.
  - destruct (peers s !! p) as [pc|]; [|exact H].
    destruct (pc_closed pc); [exact H|].
    destruct cs; try exact H.
    apply reject_webrtc_flags. exact H.
  - destruct t; destruct (attempts s !! k) as [a|]; try exact H.
    + destruct (a_signalingTimeout a) as [[d| |]|]; try exact H.
      apply reject_webrtc_flags. exact H.
    + destruct (a_streamTimeout a) as [[d| |]|]; try exact H.
      apply reject_websocket_flags. exact H.
Qed.

Lemma StreamViewer_act_flags (a : action) (s : viewer) :
  exclusive_flags s -> exclusive_flags (act StreamViewer a s).
Proof.
  intros H. destruct a as [value| |key| | | |e]; cbn [act].
  - exact H.
  - unfold clickConnect. destruct (isConnected (st s)) eqn:Ec; [exact H|].
    destruct (isConnecting (st s) || Js.blank (broadcastId (st s)))%bool
      eqn:Eg; [exact H|].
    unfold exclusive_flags.
    rewrite connectToStream_isConnected, Ec. apply andb_false_r.
  - exact H.
  - unfold clickTryAgain. destruct (Js.truthy_opt (error (st s)));
      [apply disconnect_flags|exact H].
  - unfold clickDisconnect. destruct (isConnected (st s));
      [apply disconnect_flags|exact H].
  - apply disconnect_flags.
  - apply StreamViewer_deliver_flags, H.
Qed.

(** X22.  Through the controls of [StreamViewer] and the events of the
    browser, in any order, the viewer is never connecting and connected
    at once: the connect button is the only way to [connectToStream]
    and it is out of reach while connected, and every handler that sets
    [isConnected] clears [isConnecting] in the same step.  ([WebcamViewer]
    breaks this with the Enter key.) *)
Theorem StreamViewer_never_connecting_and_connected :
  (forall tr : list action, exclusive_flags (run StreamViewer tr initial))
  /\ ~ exclusive_flags
        (run WebcamViewer
           [TypeId "A"; ClickConnect; Browser (SocketError 0);
            Browser (SocketOpen 1); PressKey "Enter"] initial).
Proof.
  split.
  - intros tr. induction tr as [|a tr IH] using rev_ind; [reflexivity|].
    rewrite run_snoc. apply StreamViewer_act_flags, IH.
  - unfold exclusive_flags. vm_compute. discriminate.
Qed.

(** *** What is sent on the sockets *)

Lemma wf_same (v : variant) (s s' : viewer) :
  sockets s' = sockets s -> attempts s' = attempts s ->
  wf v s -> wf v s'.
Proof. unfold wf. intros -> ->. auto. Qed.

Lemma attempt_id_change (v : variant) (f : attempt -> attempt)
    (a : attempt) :
  attempt_change f -> attempt_id v (f a) = attempt_id v a.
Proof.
  intros H. unfold attempt_id. rewrite (proj2 (H a)). reflexivity.
Qed.

Lemma wf_alter_attempt (v : variant) (f : attempt -> attempt) (k : nat)
    (s : viewer) :
  attempt_change f -> wf v s -> wf v (with_attempts (alter f k) s).
Proof.
  intros Hf (Ha & Hs & Hb). split; [|apply and_comm; split];
    cbn [attempts sockets with_attempts].
  - intros k' a'. rewrite list_lookup_alter.
    destruct (decide (k = k')) as [<-|Hne]; [|apply Ha].
    destruct (attempts s !! k) as [a|] eqn:E; [|discriminate].
    cbn. intros [= <-]. rewrite (proj1 (Hf a)). apply Ha, E.
  - intros k' a'. rewrite list_lookup_alter.
    destruct (decide (k = k')) as [<-|Hne]; [|apply Hb].
    destruct (attempts s !! k) as [a|] eqn:E; [|discriminate].
    cbn. intros [= <-]. rewrite (proj2 (Hf a)). apply (Hb k), E.
  - intros h w Hw. destruct (Hs h w Hw) as (a & Hk & Hrest).
    unfold socket_ok. rewrite list_lookup_alter.
    destruct (decide (k = ws_attempt w)) as [->|Hne]; [|exists a; auto].
    rewrite Hk. exists (f a). cbn. split; [reflexivity|].
    rewrite (proj1 (Hf a)), (proj2 (Hf a)), (attempt_id_change v f a Hf).
    exact Hrest.
Qed.

Lemma wf_alter_socket (v : variant) (g : websocket -> websocket) (h : nat)
    (s : viewer) :
  (forall w, sockets s !! h = Some w -> socket_change w (g w)) ->
  wf v s -> wf v (with_sockets (alter g h) s).
Proof.
  intros Hg (Ha & Hs & Hb). split; [|split; [|exact Hb]];
    cbn [attempts sockets with_sockets].
  - intros k a Hk. destruct (Ha k a Hk) as (w & Hw & Hr & Hk').
    rewrite list_lookup_alter.
    destruct (decide (h = a_signaling a)) as [->|Hne]; [|eauto].
    rewrite Hw. cbn. exists (g w).
    destruct (Hg w Hw) as (E1 & E2 & _). rewrite E1, E2. auto.
  - intros h' w'. rewrite list_lookup_alter.
    destruct (decide (h = h')) as [<-|Hne]; [|apply Hs].
    destruct (sockets s !! h) as [w|] eqn:Hw; [|discriminate].
    cbn. intros [= <-]. destruct (Hs h w Hw) as (a & Hk & Hrest).
    destruct (Hg w eq_refl) as (E1 & E2 & E3 & E4 & E5 & E6).
    unfold socket_ok. rewrite E1, E2, E3, E4, E5.
    exists a. split; [exact Hk|].
    destruct (ws_role w); [|exact Hrest].
    destruct Hrest as (Hsig & Hport & Hpath & Hj & Hc & Ho).
    repeat (split; [assumption|]).
    destruct E6 as [E|[E|[E|E]]]; try discriminate E;
      rewrite E; split; auto; discriminate.
Qed.

Lemma ws_close_change (w : websocket) : socket_change w (ws_close_obj w).
Proof.
  unfold socket_change, ws_close_obj.
  destruct (readyState w) eqn:E; cbn; rewrite ?E; auto 12.
Qed.

Lemma wf_ws_close (v : variant) (h : nat) (s : viewer) :
  wf v s -> wf v (ws_close h s).
Proof. apply wf_alter_socket. intros w _. apply ws_close_change. Qed.

(** An answer or a candidate sent on the signaling socket of its
    attempt. *)
Lemma wf_send_later (v : variant) (k : nat) (a : attempt)
    (m : out_message) (s : viewer) :
  attempts s !! k = Some a -> later_message (attempt_id v a) m ->
  wf v s -> wf v (ws_send (a_signaling a) m s).
Proof.
  intros Hk Hm (Ha & Hs & Hb). split; [|split; [|exact Hb]];
    cbn [attempts sockets ws_send with_sockets].
  - intros k' a' Hk'. destruct (Ha k' a' Hk') as (w & Hw & Hr & Hk'').
    rewrite list_lookup_alter.
    destruct (decide (a_signaling a = a_signaling a')) as [->|Hne];
      [|eauto].
    rewrite Hw. cbn. exists (ws_send_obj m w). unfold ws_send_obj.
    destruct (readyState w); auto.
  - intros h w'. rewrite list_lookup_alter.
    destruct (decide (a_signaling a = h)) as [<-|Hne]; [|apply Hs].
    destruct (sockets s !! a_signaling a) as [w|] eqn:Hw; [|discriminate].
    cbn. intros [= <-]. specialize (Hs _ w Hw).
    destruct (Ha k a Hk) as (w0 & Hw0 & Hr0 & Hk0).
    rewrite Hw in Hw0. injection Hw0 as <-.
    unfold ws_send_obj. destruct (readyState w) eqn:Er; try exact Hs.
    unfold socket_ok in *. cbn [ws_role ws_attempt sent readyState ws_port
                                ws_path].
    rewrite Hr0 in *. destruct Hs as (a1 & Hk1 & Hsig & Hport & Hpath & Hj
                                      & Hc & Ho).
    rewrite Hk0, Hk in Hk1. injection Hk1 as <-.
    exists a. rewrite Hk0. repeat (split; [assumption|]).
    split; [|split].
    + destruct Hj as [E|(rest & E & Hrest)]; [destruct (Ho Er E)|].
      right. exists (rest ++ [m]). rewrite E. split; [reflexivity|].
      apply Forall_app. split; [exact Hrest|]. constructor; [exact Hm|].
      constructor.
    + intros E. rewrite ?Er in E. discriminate E.
    + intros _ E. apply app_eq_nil in E as [_ E]. discriminate.
Qed.

(** The open event of a signaling socket: the socket opens and
    [join-stream] is its first message. *)
Lemma wf_signaling_open (v : variant) (h : nat) (w : websocket)
    (a : attempt) (s : viewer) :
  sockets s !! h = Some w -> readyState w = CONNECTING ->
  ws_role w = Signaling -> attempts s !! ws_attempt w = Some a ->
  wf v s ->
  wf v (signaling_onopen v (ws_attempt w) a
          (with_sockets (alter (ws_with_readyState OPEN) h) s)).
Proof.
  intros Hw Hc Hr Hk Hwf.
  pose proof Hwf as (Ha & Hs & Hb).
  pose proof (Hs h w Hw) as Hok. unfold socket_ok in Hok. rewrite Hr in Hok.
  destruct Hok as (a1 & Hk1 & Hsig & Hport & Hpath & _ & Hnil & _).
  rewrite Hk in Hk1. injection Hk1 as <-. specialize (Hnil Hc).
  set (g := fun w0 => ws_send_obj (JoinStream (attempt_id v a))
                        (ws_with_readyState OPEN w0)).
  assert (Hg : wf v (with_sockets (alter g h) s)).
  { split; [|split; [|exact Hb]]; cbn [attempts sockets with_sockets].
    - intros k' a' Hk'. destruct (Ha k' a' Hk') as (w' & Hw' & Hr' & Hk'').
      rewrite list_lookup_alter.
      destruct (decide (h = a_signaling a')) as [->|Hne]; [|eauto].
      rewrite Hw'. cbn. exists (g w'). auto.
    - intros h' w'. rewrite list_lookup_alter.
      destruct (decide (h = h')) as [<-|Hne]; [|apply Hs].
      rewrite Hw. cbn. intros [= <-]. unfold socket_ok, g. cbn.
      rewrite Hr. exists a. rewrite Hnil. cbn.
      repeat (split; [assumption|]).
      split; [right; exists []; split; [reflexivity|constructor]|].
      split; discriminate. }
  unfold signaling_onopen, clear_signalingTimeout.
  destruct v.
  - eapply wf_same; [| |exact Hg]; cbn [sockets attempts ws_send with_sockets];
      [|reflexivity].
    rewrite Hsig, list_alter_alter_eq. reflexivity.
  - eapply wf_same;
      [| |apply (wf_alter_attempt WebcamViewer
                   (fun a0 => a_with_signalingTimeout
                                (clearTimeout (a_signalingTimeout a0)) a0)
                   (ws_attempt w) _ (fun a0 => conj eq_refl eq_refl) Hg)];
      cbn [sockets attempts ws_send with_sockets with_attempts];
      [|reflexivity].
    rewrite Hsig, list_alter_alter_eq. reflexivity.
Qed.

Lemma wf_snoc_frame (v : variant) (k : nat) (a : attempt) (s : viewer) :
  attempts s !! k = Some a ->
  wf v s ->
  wf v (with_sockets
          (fun l =>
             l ++ [new_websocket 8081 ("/stream/" +:+ attempt_id v a) k
                     Frame]) s).
Proof.
  intros Hk (Ha & Hs & Hb). split; [|split; [|exact Hb]];
    cbn [attempts sockets with_sockets].
  - intros k' a' Hk'. destruct (Ha k' a' Hk') as (w & Hw & Hr).
    exists w. split; [apply lookup_app_l_Some, Hw|exact Hr].
  - intros h w Hw. apply lookup_snoc_Some in Hw as [[_ Hw]|[_ <-]].
    + apply Hs, Hw.
    + exists a. cbn. auto.
Qed.

Lemma wf_reject_websocket (v : variant) (k : nat) (r : string)
    (s : viewer) :
  wf v s -> wf v (reject_websocket v k r s).
Proof.
  intros H. unfold reject_websocket.
  destruct (attempts s !! k) as [a|]; [|exact H].
  destruct (a_websocket a) as [[| |]|]; try exact H.
  apply (wf_alter_attempt v (a_with_websocket (Some (Rejected r))) k s);
    [intros a0; split; reflexivity|exact H].
Qed.

Lemma wf_connectWebSocket (v : variant) (k : nat) (s : viewer) :
  wf v s -> wf v (connectWebSocket v k s).
Proof.
  intros H. unfold connectWebSocket.
  destruct (attempts s !! k) as [a|] eqn:Hk; [|exact H].
  match goal with |- context [if ?b then _ else _] => destruct b end;
    [apply wf_reject_websocket, wf_alter_attempt;
       [intros a0; split; reflexivity|exact H]|].
  apply wf_alter_attempt; [intros a0; split; reflexivity|].
  apply (wf_same v (with_sockets
                      (fun l =>
                         l ++ [new_websocket 8081
                                 ("/stream/" +:+ attempt_id v a) k Frame])
                      s)); [destruct v; reflexivity|reflexivity|].
  apply wf_snoc_frame; assumption.
Qed.

Lemma wf_reject_webrtc (v : variant) (k : nat) (r : string) (s : viewer) :
  wf v s -> wf v (reject_webrtc v k r s).
Proof.
  intros H. unfold reject_webrtc.
  destruct (attempts s !! k) as [a|]; [|exact H].
  destruct (a_webrtc a); try exact H.
  apply wf_connectWebSocket, wf_alter_attempt;
    [intros a0; split; reflexivity|exact H].
Qed.

Lemma wf_resolve_webrtc (v : variant) (k : nat) (s : viewer) :
  wf v s -> wf v (resolve_webrtc v k s).
Proof.
  intros H. unfold resolve_webrtc.
  destruct (attempts s !! k) as [a|]; [|exact H].
  destruct (a_webrtc a); try exact H.
  assert (H' : wf v (with_attempts (alter (a_with_webrtc Fulfilled) k) s))
    by (apply wf_alter_attempt; [intros a0; split; reflexivity|exact H]).
  destruct v; exact H'.
Qed.

Lemma wf_resolve_websocket (v : variant) (k : nat) (s : viewer) :
  wf v s -> wf v (resolve_websocket v k s).
Proof.
  intros H. unfold resolve_websocket.
  destruct (attempts s !! k) as [a|]; [|exact H].
  destruct (a_websocket a) as [[| |]|]; try exact H.
  assert (H' : wf v (with_attempts
                       (alter (a_with_websocket (Some Fulfilled)) k) s))
    by (apply wf_alter_attempt; [intros a0; split; reflexivity|exact H]).
  destruct v; exact H'.
Qed.

Lemma attempts_disconnect (v : variant) (s : viewer) :
  attempts (disconnect v s) = attempts s.
Proof.
  destruct s as [u [vr pr wr sr] so pe at_].
  destruct v, pr, wr, sr, vr; reflexivity.
Qed.

Lemma wf_disconnect (v : variant) (s : viewer) :
  wf v s -> wf v (disconnect v s).
Proof.
  intros H.
  set (s1 := match v, signalingWsRef (rf s) with
             | WebcamViewer, Some h => ws_close h s
             | _, _ => s
             end).
  assert (H1 : wf v s1)
    by (unfold s1; destruct v, (signalingWsRef (rf s));
        try exact H; apply wf_ws_close, H).
  set (s2 := match websocketRef (rf s) with
             | Some h => ws_close h s1
             | None => s1
             end).
  assert (H2 : wf v s2)
    by (unfold s2; destruct (websocketRef (rf s));
        [apply wf_ws_close, H1|exact H1]).
  apply (wf_same v s2); [| |exact H2].
  - rewrite disconnect_sockets. unfold s2, s1.
    destruct v, (signalingWsRef (rf s)), (websocketRef (rf s)); reflexivity.
  - rewrite attempts_disconnect. unfold s2, s1.
    destruct v, (signalingWsRef (rf s)), (websocketRef (rf s)); reflexivity.
Qed.

Lemma wf_connectWebRTC (v : variant) (s : viewer) :
  Js.blank (broadcastId (st s)) = false ->
  wf v s -> wf v (connectWebRTC v s).
Proof.
  intros Hnb Hwf.
  destruct (has_fragment ("/signaling/viewer/" +:+ broadcastId (st s)))
    eqn:E.
  { apply (wf_same v s); [| |exact Hwf];
      unfold connectWebRTC; rewrite E; reflexivity. }
  destruct Hwf as (Ha & Hs & Hb).
  assert (Hso : sockets (connectWebRTC v s)
                = sockets s
                  ++ [new_websocket 8080
                        ("/signaling/viewer/" +:+ broadcastId (st s))
                        (length (attempts s)) Signaling])
    by (unfold connectWebRTC; rewrite E; destruct v; reflexivity).
  assert (Hat : attempts (connectWebRTC v s)
                = attempts s
                  ++ [{| a_broadcastId := broadcastId (st s);
                         a_isConnected := isConnected (st s);
                         a_signaling := length (sockets s);
                         a_peer := length (peers s);
                         a_webrtc := Pending;
                         a_signalingTimeout := connection_timeout v;
                         a_stream := None; a_websocket := None;
                         a_streamTimeout := None |}])
    by (unfold connectWebRTC; rewrite E; destruct v; reflexivity).
  split; [|apply and_comm; split]; rewrite ?Hso, Hat.
  - intros k a Hk. apply lookup_snoc_Some in Hk as [[_ Hk]|[-> <-]].
    + destruct (Ha k a Hk) as (w & Hw & Hr).
      exists w. split; [apply lookup_app_l_Some, Hw|exact Hr].
    + eexists. split; [apply list_lookup_middle; reflexivity|].
      split; reflexivity.
  - intros k a Hk. apply lookup_snoc_Some in Hk as [[_ Hk]|[-> <-]].
    + apply (Hb k), Hk.
    + split; [exact Hnb|]. rewrite <- has_fragment_signaling. exact E.
  - intros h w Hw. apply lookup_snoc_Some in Hw as [[_ Hw]|[-> <-]].
    + destruct (Hs h w Hw) as (a & Hk & Hrest). exists a.
      split; [apply lookup_app_l_Some, Hk|exact Hrest].
    + unfold socket_ok. cbn. eexists.
      split; [apply list_lookup_middle; reflexivity|]. cbn.
      split; [reflexivity|]. split; [reflexivity|].
      split; [reflexivity|]. split; [left; reflexivity|].
      split; [reflexivity|discriminate].
Qed.

Lemma wf_connectToStream (v : variant) (s : viewer) :
  wf v s -> wf v (connectToStream v s).
Proof.
  intros H. unfold connectToStream.
  destruct (Js.blank (broadcastId (st s))) eqn:E; [exact H|].
  apply wf_connectWebRTC; destruct v; first [exact E|exact H].
Qed.

Lemma wf_clear_timeouts (v : variant) (k : nat) (s : viewer) :
  wf v s ->
  wf v (clear_signalingTimeout v k s) /\ wf v (clear_streamTimeout v k s).
Proof.
  intros H. unfold clear_signalingTimeout, clear_streamTimeout.
  destruct v; split; try exact H;
    apply wf_alter_attempt; try exact H; intros a0; split; reflexivity.
Qed.

Lemma wf_deliver (v : variant) (e : event) (s : viewer) :
  wf v s -> wf v (deliver v e s).
Proof.
  intros H. destruct e as [h|h d|h|h code|p st0|p c|p cs|k t]; unfold deliver.
  - destruct (sockets s !! h) as [w|] eqn:Hw; [|exact H].
    destruct (readyState w) eqn:Er,
             (attempts s !! ws_attempt w) as [a|] eqn:Ha; try exact H.
    destruct (ws_role w) eqn:Erole.
    + apply wf_signaling_open; assumption.
    + unfold stream_onopen. apply wf_resolve_websocket.
      apply (wf_same v (clear_streamTimeout v (ws_attempt w)
                          (with_sockets (alter (ws_with_readyState OPEN) h)
                             s))); [reflexivity|reflexivity|].
      apply wf_clear_timeouts, wf_alter_socket; [|exact H].
      intros w0 Hw0. rewrite Hw in Hw0. injection Hw0 as <-.
      unfold socket_change. cbn. auto 12.
  - destruct (sockets s !! h) as [w|] eqn:Hw; [|exact H].
    destruct (readyState w) eqn:Er,
             (attempts s !! ws_attempt w) as [a|] eqn:Ha; try exact H.
    destruct (ws_role w) eqn:Erole.
    + unfold signaling_onmessage.
      destruct d as [url|[o|c|n q|m| | |]|];
        first
          [ exact H
          | apply wf_reject_webrtc; exact H
          | apply wf_disconnect; exact H
          | destruct v; first [exact H | apply wf_reject_webrtc; exact H]
          | destruct v, c; exact H
          | idtac ].
      destruct (peers s !! a_peer a) as [pc|]; [|exact H].
      destruct (pc_accept_offer o pc) as [pc' [ans|]]; [|exact H].
      apply (wf_send_later v (ws_attempt w) a); [exact Ha|reflexivity|].
      exact H.
    + unfold stream_onmessage.
      destruct d as [url|[o|c|n q|m| | |]|];
        first
          [ exact H
          | apply wf_reject_websocket; exact H
          | destruct v; first [exact H | apply wf_disconnect; exact H]
          | destruct (videoRef (rf s)); exact H ].
  - destruct (sockets s !! h) as [w|] eqn:Hw; [|exact H].
    assert (Hc : wf v (with_sockets (alter (ws_with_readyState CLOSED) h) s)).
    { apply wf_alter_socket; [|exact H]. intros w0 _.
      unfold socket_change. cbn. auto 12. }
    destruct (readyState w), (closeFired w); try exact H;
      destruct (ws_role w);
      first [ unfold signaling_onerror; destruct v;
              apply wf_reject_webrtc; try apply wf_clear_timeouts; exact Hc
            | unfold stream_onerror; apply wf_reject_websocket,
                wf_clear_timeouts, Hc ].
  - destruct (sockets s !! h) as [w|] eqn:Hw; [|exact H].
    destruct (closeFired w), (attempts s !! ws_attempt w) as [a|];
      try exact H.
    assert (Hc : wf v (with_sockets (alter ws_with_closeFired h) s)).
    { apply wf_alter_socket; [|exact H]. intros w0 _.
      unfold socket_change. cbn. auto 12. }
    destruct (ws_role w).
    + unfold signaling_onclose. destruct v, (a_isConnected a); exact Hc.
    + unfold stream_onclose. destruct v; [exact Hc|].
      destruct (negb (code =? 1000)); exact Hc.
  - destruct (peers s !! p) as [pc|]; [|exact H].
    destruct (pc_closed pc); [exact H|]. unfold peer_ontrack.
    destruct (videoRef (rf s)), st0; try exact H.
    apply wf_resolve_webrtc. destruct v; exact H.
  - destruct (peers s !! p) as [pc|]; [|exact H].
    destruct (pc_closed pc), (attempts s !! pc_attempt pc) as [a|] eqn:Ha;
      try exact H.
    unfold peer_onicecandidate. destruct c as [c|]; [|exact H].
    apply (wf_send_later v (pc_attempt pc) a); [exact Ha|reflexivity|exact H].
  - destruct (peers s !! p) as [pc|]; [|exact H].
    destruct (pc_closed pc); [exact H|].
    unfold peer_onconnectionstatechange.
    destruct v, cs; first [exact H | apply wf_reject_webrtc; exact H].
  - destruct t; destruct (attempts s !! k) as [a|]; try exact H.
    + destruct (a_signalingTimeout a) as [[d| |]|]; try exact H.
      apply wf_reject_webrtc, wf_alter_attempt; [|exact H].
      intros a0; split; reflexivity.
    + destruct (a_streamTimeout a) as [[d| |]|]; try exact H.
      apply wf_reject_websocket, wf_alter_attempt; [|exact H].
      intros a0; split; reflexivity.
Qed.

Lemma wf_act (v : variant) (a : action) (s : viewer) :
  wf v s -> wf v (act v a s).
Proof.
  intros H. destruct a as [value| |key| | | |e]; cbn [act].
  - exact H.
  - unfold clickConnect. destruct (isConnected (st s)); [exact H|].
    destruct (isConnecting (st s) || Js.blank (broadcastId (st s)))%bool;
      [exact H|apply wf_connectToStream, H].
  - unfold handleKeyPress. destruct v; [exact H|].
    destruct (String.eqb key "Enter" && negb (isConnecting (st s))
              && negb (Js.blank (broadcastId (st s))))%bool;
      [apply wf_connectToStream, H|exact H].
  - unfold clickTryAgain. destruct (Js.truthy_opt (error (st s)));
      [|exact H].
    destruct v; [apply wf_disconnect; exact H|].
    destruct (negb (Js.blank (broadcastId (st (setError None s)))));
      [apply wf_connectToStream|]; exact H.
  - unfold clickDisconnect. destruct (isConnected (st s));
      [apply wf_disconnect, H|exact H].
  - apply wf_disconnect, H.
  - apply wf_deliver, H.
Qed.

Lemma wf_run (v : variant) (tr : list action) : wf v (run v tr initial).
Proof.
  induction tr as [|a tr IH] using rev_ind.
  - split; [|split]; intros ? ? Hx; cbn in Hx; discriminate.
  - rewrite run_snoc. apply wf_act, IH.
Qed.

(** X23.  What the viewers send, over every run of user actions and
    browser events from the initial state.  On a signaling socket the
    first message is [join-stream], sent once, when the socket opens;
    after it come only answers and ICE candidates; and every message
    carries the broadcast id of the attempt that opened the socket
    (trimmed in [WebcamViewer]).  Nothing is ever sent on a frame
    socket, and nothing on a socket that has not opened. *)
Theorem sent_messages_follow_protocol (v : variant) (tr : list action)
    (h : nat) (w : websocket) :
  sockets (run v tr initial) !! h = Some w ->
  exists a,
    attempts (run v tr initial) !! ws_attempt w = Some a
    /\ match ws_role w with
       | Frame => sent w = []
       | Signaling =>
           join_first (attempt_id v a) (sent w)
           /\ (readyState w = CONNECTING -> sent w = [])
           /\ (readyState w = OPEN -> sent w <> [])
       end.
Proof.
  intros Hw. destruct (proj1 (proj2 (wf_run v tr)) h w Hw) as (a & Hk & H).
  exists a. split; [exact Hk|].
  destruct (ws_role w); [|tauto]. tauto.
Qed.

Lemma sent_messages_follow_protocol_witness :
  let tr := [TypeId " A "; PressKey "Enter"; Browser (SocketOpen 0);
             Browser (SocketMessage 0 (Json (Offer "o")));
             Browser (PeerIceCandidate 0 (Some "c"))] in
  exists a,
    attempts (run WebcamViewer tr initial) !! 0%nat = Some a
    /\ (join_first (attempt_id WebcamViewer a)
          [JoinStream "A"; AnswerOut "answer:o" "A"; IceCandidateOut "c" "A"]
        /\ (OPEN = CONNECTING ->
            [JoinStream "A"; AnswerOut "answer:o" "A";
             IceCandidateOut "c" "A"] = [])
        /\ (OPEN = OPEN ->
            [JoinStream "A"; AnswerOut "answer:o" "A";
             IceCandidateOut "c" "A"] <> [])).
Proof.
  exact (sent_messages_follow_protocol WebcamViewer
           [TypeId " A "; PressKey "Enter"; Browser (SocketOpen 0);
            Browser (SocketMessage 0 (Json (Offer "o")));
            Browser (PeerIceCandidate 0 (Some "c"))]
           0%nat
           {| ws_port := 8080; ws_path := "/signaling/viewer/ A ";
              readyState := OPEN; closeFired := false;
              sent := [JoinStream "A"; AnswerOut "answer:o" "A";
                       IceCandidateOut "c" "A"];
              ws_attempt := 0; ws_role := Signaling |} eq_refl).
Defined.



End ViewerInvariants.
